(** * ISave_Backend: the video-resolution REST service (server.js)

    [server.js] holds two revisions of the same Express application: the
    simple one (auto-detected platform, no cache) and the cached one
    (explicit [platform] parameter, node-cache in front of the extractors).
    Both are embedded here, each in its own module, over a common model of
    JavaScript values, exceptions and the Express middleware chain.

    The extraction libraries (ytdl-core, instagram-url-direct), the WHATWG
    URL parser of the runtime, and the clock are outside the repository:
    they enter the development as parameters ([World], [new_URL], the
    request's arrival [time]). *)

From Stdlib Require Import String Ascii ZArith List Bool Lia.
From stdpp Require Import gmap strings.
Import ListNotations.
#[local] Open Scope string_scope.
#[local] Set Warnings "-register-all".

(** ** JavaScript values, strings and exceptions *)

Module JS.

(** The values that travel through the handlers and into [res.json].
    [JStream] is the readable stream object returned by a call
    [ytdl(url, options)]; it is kept opaque, tagged by the url it was
    opened on, and like every other value it can be stored in the cache
    and passed to [res.json].  [JStreamCopy] is what a deep copy of such a
    stream object is: a plain object with the stream's properties, which
    [res.json] writes differently from the stream itself. *)
Inductive JSValue : Type :=
| JUndefined
| JNull
| JBool (b : bool)
| JStr (s : string)
| JObj (fields : list (string * JSValue))
| JStream (source : string)
| JStreamCopy (source : string).

(** The deep copy made by the [clone] package, which node-cache applies to
    every value it stores and hands out ([useClones], on by default):
    plain data is copied as it is, a stream object loses its identity. *)
Fixpoint clone (v : JSValue) : JSValue :=
  match v with
  | JObj fields => JObj (List.map (fun '(k, x) => (k, clone x)) fields)
  | JStream source => JStreamCopy source
  | JUndefined | JNull | JBool _ | JStr _ | JStreamCopy _ => v
  end.

(** [if (v)] *)
Definition truthy (v : JSValue) : bool :=
  match v with
  | JUndefined | JNull => false
  | JBool b => b
  | JStr s => negb (s =? "")
  | JObj _ | JStream _ | JStreamCopy _ => true
  end.

(** [o.name] on an object literal: the first binding of [name]. *)
Fixpoint assoc (name : string) (fields : list (string * JSValue)) : JSValue :=
  match fields with
  | [] => JUndefined
  | (k, v) :: rest => if k =? name then v else assoc name rest
  end.

Definition field (name : string) (v : JSValue) : JSValue :=
  match v with
  | JObj fields => assoc name fields
  | _ => JUndefined
  end.

Definition is_string (v : JSValue) : bool :=
  match v with JStr _ => true | _ => false end.

(** A query-string parameter as Express hands it to the handler:
    a string, or [undefined] when the parameter is absent. *)
Definition Param := option string.

(** [!p] is false exactly for a present, non-empty string. *)
Definition present (p : Param) : bool :=
  match p with
  | Some s => negb (s =? "")
  | None => false
  end.

(** String coercion of a parameter inside a template literal. *)
Definition to_string (p : Param) : string :=
  match p with
  | Some s => s
  | None => "undefined"
  end.

(** [String.prototype.includes] *)
Fixpoint includes (s needle : string) : bool :=
  String.prefix needle s ||
  match s with
  | EmptyString => false
  | String _ rest => includes rest needle
  end.

(** [String.prototype.toLowerCase] on the ASCII range; the hostname of a
    parsed URL is always ASCII (non-ASCII hosts are punycoded or
    percent-encoded by the parser). *)
Definition lower_ascii (c : ascii) : ascii :=
  let n := nat_of_ascii c in
  if (65 <=? n)%nat && (n <=? 90)%nat then ascii_of_nat (n + 32) else c.

Fixpoint toLowerCase (s : string) : string :=
  match s with
  | EmptyString => EmptyString
  | String c rest => String (lower_ascii c) (toLowerCase rest)
  end.

(** A computation that may throw an [Error]; only the error's [message]
    is ever read by the handlers. *)
Inductive Exc (A : Type) : Type :=
| Ok (a : A)
| Throw (message : string).
Arguments Ok {A} a.
Arguments Throw {A} message.

(** The object built by [new URL(url)], reduced to the one property the
    code reads. *)
Record URL := { hostname : string }.

End JS.
Import JS.

(** ** The outside world: extraction libraries *)

Module Extractors.

(** One entry of [info.formats]. *)
Record Format := {
  itag : Z;
  format_url : string;       (* format.url *)
  hasVideo : bool;
  hasAudio : bool }.

(** The part of the result of [ytdl.getInfo] that the handlers read:
    [info.videoDetails.title], [.thumbnails[i].url], [.lengthSeconds],
    [.author.name], and [info.formats]. *)
Record Info := {
  title : string;
  thumbnails : list string;
  lengthSeconds : string;
  author_name : string;
  formats : list Format }.

(** The result of [instagramGetUrl]: [{ url_list, type }]. *)
Record IgResponse := {
  url_list : list string;
  media_type : string }.     (* igResponse.type *)

(** What the libraries answer while one request is served.  Nothing is
    assumed about them: each request may see a different [World]. *)
Record World := {
  ytdl_validateURL : string -> bool;
  ytdl_getInfo : string -> Exc Info;
  ytdl_chooseFormat : list Format -> Exc Format;
  instagramGetUrl : string -> Exc IgResponse }.

(** The calls into the libraries, as recorded in the call log. *)
Inductive ExtCall : Type :=
| CallGetInfo (url : string)
| CallChooseFormat
| CallYtdl (url : string)
| CallInstagramGetUrl (url : string).

End Extractors.
Import Extractors.

(** ** The response cache (node-cache) *)

Module NodeCache.

(** Modelled from the spec: node-cache is a dependency and its code is
    not part of the repository.  Spec 3 (CacheEntry) and 4.3 give its
    contract: [get(key) -> Option], [set(key, value)] with a fixed
    time-to-live counted from insertion, entries expiring passively.
    An entry is kept with the instant at which it expires, and a lookup
    past that instant finds nothing.  Times are milliseconds, as
    [Date.now()]. *)
Record Entry := { value : JSValue; expires : Z }.

(** [new NodeCache({ stdTTL: 3600 })], in seconds. *)
Definition stdTTL : Z := 3600.

(** Modelled from the spec: [cache.get(key)] of node-cache, a copy of
    the stored value while the entry lives and [undefined] otherwise
    (spec 4.3). *)
Definition get (c : gmap string Entry) (now : Z) (key : string) : JSValue :=
  match c !! key with
  | Some e => if (now <=? expires e)%Z then clone (value e) else JUndefined
  | None => JUndefined
  end.

(** Modelled from the spec: [cache.set(key, value)] of node-cache, an
    entry holding a copy of the value, which lives [stdTTL] seconds from
    now (spec 3, CacheEntry). *)
Definition set (c : gmap string Entry) (now : Z) (key : string) (v : JSValue)
  : gmap string Entry :=
  <[key := {| value := clone v; expires := (now + stdTTL * 1000)%Z |}]> c.

End NodeCache.

(** ** Handlers: state, early responses and exceptions *)

Module Handler.

(** [res.status(code).json(payload)] and [res.send(text)]. *)
Inductive Body : Type :=
| JsonBody (v : JSValue)
| TextBody (s : string)
| OpaqueBody (what : string)
| EmptyBody.

Record Reply := { code : Z; payload : Body }.

(** What a route handler can change: the cache, and the log of calls it
    made into the extraction libraries. *)
Record HState := {
  cache : gmap string NodeCache.Entry;
  calls : list ExtCall }.

(** A statement block either runs to its end with a value, throws, or
    leaves the handler through [return res....json(...)]. *)
Inductive Outcome (A : Type) : Type :=
| Val (a : A)
| Thrown (message : string)
| Sent (r : Reply).
Arguments Val {A} a.
Arguments Thrown {A} message.
Arguments Sent {A} r.

Definition H (A : Type) : Type := HState -> Outcome A * HState.

Definition ret {A} (a : A) : H A := fun s => (Val a, s).

Definition bind {A B} (m : H A) (k : A -> H B) : H B :=
  fun s =>
    match m s with
    | (Val a, s') => k a s'
    | (Thrown e, s') => (Thrown e, s')
    | (Sent r, s') => (Sent r, s')
    end.

Definition throw {A} (message : string) : H A := fun s => (Thrown message, s).

(** [return res.status(code).json(v)] *)
Definition respond {A} (code : Z) (v : JSValue) : H A :=
  fun s => (Sent {| code := code; payload := JsonBody v |}, s).

(** [try { m } catch (error) { h(error.message) }]: a [return] inside the
    block is not an exception and leaves through the handler untouched. *)
Definition try_catch {A} (m : H A) (h : string -> H A) : H A :=
  fun s =>
    match m s with
    | (Thrown e, s') => h e s'
    | other => other
    end.

(** A call into a library: logged, then its answer or its exception. *)
Definition call {A} (c : ExtCall) (answer : Exc A) : H A :=
  fun s =>
    let s' := {| cache := cache s; calls := calls s ++ [c] |} in
    match answer with
    | Ok a => (Val a, s')
    | Throw e => (Thrown e, s')
    end.

Definition cache_get (now : Z) (key : string) : H JSValue :=
  fun s => (Val (NodeCache.get (cache s) now key), s).

Definition cache_set (now : Z) (key : string) (v : JSValue) : H unit :=
  fun s => (Val tt, {| cache := NodeCache.set (cache s) now key v; calls := calls s |}).

(** [xs[0].url] over an array of objects: reading a property of
    [undefined] is a TypeError. *)
Definition first_url (xs : list string) : H string :=
  match xs !! 0%nat with
  | Some u => ret u
  | None => throw "Cannot read properties of undefined (reading 'url')"
  end.

(** [xs[0]] over an array of strings. *)
Definition index0 (xs : list string) : JSValue :=
  match xs !! 0%nat with
  | Some u => JStr u
  | None => JUndefined
  end.

End Handler.
Import Handler.

Notation "'let!' x ':=' m 'in' k" := (bind m (fun x => k))
  (at level 10, x name, m at level 100, k at level 200).
Notation "'run!' m 'in' k" := (bind m (fun _ => k))
  (at level 10, m at level 100, k at level 200).

(** The JSON error body [{ success: false, error }]. *)
Definition error_body (message : string) : JSValue :=
  JObj [("success", JBool false); ("error", JStr message)].

(** ** The Express middleware chain *)

Module Express.

(** The request methods of the model.  Other methods are left out, HEAD
    among them, which Express serves through the GET handlers and answers
    without a body. *)
Inductive Method : Type := GET | POST | OPTIONS.

(** An incoming request, reduced to what the application reads.  [path]
    is the path as the router compares it (Express ignores case and a
    trailing slash); query parameters are strings or absent; [ip] is
    [req.ip]; [body_error] is the message of the exception
    [express.json()] raises on a malformed JSON body, if any; [time] is
    [Date.now()] when the request is served. *)
Record Request := {
  method : Method;
  path : string;
  query_url : Param;
  query_platform : Param;
  ip : string;
  origin : option string;
  body_error : option string;
  time : Z }.

Definition Headers : Type := list (string * string).

(** [res.setHeader(name, value)] *)
Definition setHeader (name value : string) (h : Headers) : Headers :=
  (name, value) :: List.filter (fun kv => negb (fst kv =? name)) h.

(** [res.getHeader(name)] *)
Fixpoint getHeader (name : string) (h : Headers) : option string :=
  match h with
  | [] => None
  | (k, v) :: rest => if k =? name then Some v else getHeader name rest
  end.

Record Response := { status : Z; headers : Headers; body : Body }.

(** Modelled from the spec: express-rate-limit is a dependency and its
    code is not part of the repository.  Spec 3 (RateLimitState) and 4.4
    give its state and contract: per client address a counter and the
    window it belongs to, [check(clientAddress) -> Allow | Deny]. *)
Record Window := { hits : nat; resetTime : Z }.

(** The process-wide state: the cache, the limiter's store, and the log
    of library calls. *)
Record AppState := {
  app_cache : gmap string NodeCache.Entry;
  app_limits : gmap string Window;
  app_calls : list ExtCall }.

(** What a layer does with a request: hand over to the next layer
    ([next()]), hand over an error ([next(err)]), end the response, or
    return without doing either. *)
Inductive Flow : Type :=
| Continue (h : Headers)
| Fail (message : string) (h : Headers)
| Finish (r : Response)
| Stall.

(** [app.use(fn)] with three parameters, and with four (error handler). *)
Inductive Layer : Type :=
| Use (f : Request -> Headers -> AppState -> Flow * AppState)
| UseError (f : string -> Request -> Headers -> AppState -> Flow * AppState).

(** The default handler of Express, reached when the stack is exhausted. *)
Definition finalhandler (err : option string) (h : Headers) : Response :=
  {| status := match err with Some _ => 500 | None => 404 end;
     headers := h;
     body := OpaqueBody "finalhandler" |}.

(** Layers run in registration order.  While no error is pending the
    error handlers are skipped; once [next(err)] was called only error
    handlers run. *)
Fixpoint dispatch (stack : list Layer) (err : option string)
         (req : Request) (h : Headers) (st : AppState)
  : option Response * AppState :=
  match stack with
  | [] => (Some (finalhandler err h), st)
  | layer :: rest =>
      let step (out : Flow * AppState) :=
        match out with
        | (Continue h', st') => dispatch rest None req h' st'
        | (Fail e h', st') => dispatch rest (Some e) req h' st'
        | (Finish r, st') => (Some r, st')
        | (Stall, st') => (None, st')
        end in
      match layer, err with
      | Use f, None => step (f req h st)
      | UseError f, Some e => step (f e req h st)
      | Use _, Some _ | UseError _, None => dispatch rest err req h st
      end
  end.

(** [res.status(code).json(v)] *)
Definition res_json (code : Z) (v : JSValue) (h : Headers) : Response :=
  {| status := code;
     headers := setHeader "Content-Type" "application/json; charset=utf-8" h;
     body := JsonBody v |}.

(** [res.send(text)] *)
Definition res_send (text : string) (h : Headers) : Response :=
  {| status := 200;
     headers := setHeader "Content-Type" "text/html; charset=utf-8" h;
     body := TextBody text |}.

(** The methods a route registered with [app.get(path, ...)] serves. *)
Definition get_like (m : Method) : bool :=
  match m with GET => true | POST | OPTIONS => false end.

Definition app_get (p : string)
           (f : Request -> Headers -> AppState -> Flow * AppState) : Layer :=
  Use (fun req h st =>
         if get_like (method req) && (path req =? p) then f req h st
         else (Continue h, st)).

(** Two handlers on one route: the second runs when the first calls
    [next()]. *)
Definition then_ (f g : Request -> Headers -> AppState -> Flow * AppState)
  : Request -> Headers -> AppState -> Flow * AppState :=
  fun req h st =>
    match f req h st with
    | (Continue h', st') => g req h' st'
    | other => other
    end.

(** An [async (req, res) => { ... }] handler: its reply ends the
    response; a handler that returns or rejects without replying leaves
    the request unanswered. *)
Definition async_handler (m : Request -> H unit)
  : Request -> Headers -> AppState -> Flow * AppState :=
  fun req h st =>
    let out := m req {| cache := app_cache st; calls := app_calls st |} in
    let st' := {| app_cache := cache (snd out);
                  app_limits := app_limits st;
                  app_calls := calls (snd out) |} in
    match fst out with
    | Sent r =>
        (Finish {| status := code r;
                   headers := setHeader "Content-Type"
                                "application/json; charset=utf-8" h;
                   body := payload r |}, st')
    | Val _ | Thrown _ => (Stall, st')
    end.

(** [express.json()] *)
Definition express_json : Layer :=
  Use (fun req h st =>
         match body_error req with
         | Some e => (Fail e h, st)
         | None => (Continue h, st)
         end).

(** [app.use('/api-docs', swaggerUi.serve, swaggerUi.setup(specs))]:
    the documentation pages, kept opaque; a request for the mount path
    itself is redirected to the index page. *)
Definition under (mount p : string) : bool :=
  (p =? mount) || String.prefix (mount ++ "/") p.

Definition swagger_ui : Layer :=
  Use (fun req h st =>
         if under "/api-docs" (path req)
         then (Finish {| status := if path req =? "/api-docs" then 301 else 200;
                         headers := h;
                         body := OpaqueBody "swagger-ui" |}, st)
         else (Continue h, st)).

(** [process.env.NODE_ENV === name] *)
Definition env_is (NODE_ENV : option string) (name : string) : bool :=
  match NODE_ENV with
  | Some v => v =? name
  | None => false
  end.

(** *** The rate limiter

    [rateLimit({ windowMs, max, message, ... })], keyed by [req.ip]. *)
Record Options := { windowMs : Z; max : nat; message : JSValue }.

(** Modelled from the spec: the counter of express-rate-limit's store
    (spec 3, RateLimitState).  Counting one more request of [key] at time
    [now]: a window that has run out is replaced by a fresh one. *)
Definition increment (o : Options) (store : gmap string Window)
           (key : string) (now : Z) : Window :=
  match store !! key with
  | Some w =>
      if (now <? resetTime w)%Z
      then {| hits := S (hits w); resetTime := resetTime w |}
      else {| hits := 1; resetTime := (now + windowMs o)%Z |}
  | None => {| hits := 1; resetTime := (now + windowMs o)%Z |}
  end.

(** Modelled from the spec: the middleware of express-rate-limit (spec
    4.4, [check(clientAddress) -> Allow | Deny]).  The request passes
    while the count stays within [max]; beyond it the configured [message]
    is sent, with the library's default status, and the route handler does
    not run.  The informational RateLimit-* headers are left out. *)
Definition rateLimit (o : Options)
  : Request -> Headers -> AppState -> Flow * AppState :=
  fun req h st =>
    let w := increment o (app_limits st) (ip req) (time req) in
    let st' := {| app_cache := app_cache st;
                  app_limits := <[ip req := w]> (app_limits st);
                  app_calls := app_calls st |} in
    if (hits w <=? max o)%nat then (Continue h, st')
    else (Finish (res_json 429 (message o) h), st').

End Express.
Import Express.

(** ** The simple variant (first revision of server.js)

    The functions of this revision are embedded as they are written.  The
    revision as a whole is described by [load]: its top level has to get
    past a [swaggerJsdoc] call before any of them is registered. *)

Module Simple.

Section WithRuntime.

(** [new URL(url)] of the runtime: the parsed URL, or the TypeError it
    throws on a string that is not a URL. *)
Variable new_URL : string -> Exc URL.
(** [process.env.NODE_ENV] *)
Variable NODE_ENV : option string.
(** [swaggerJsdoc(options)] of the library, as far as it depends on
    whether the options carry [apis]: the specification, or the exception
    it throws. *)
Variable swaggerJsdoc : bool -> Exc unit.

(** Rate limiting. *)
Definition limiter_options : Options :=
  {| windowMs := 60 * 60 * 1000;
     max := 100;
     message :=
       error_body "Too many requests from this IP, please try again after an hour" |}.

Definition limiter : Request -> Headers -> AppState -> Flow * AppState :=
  rateLimit limiter_options.

(** Helper function to detect platform. *)
Definition detectPlatform (url : string) : option string :=
  match new_URL url with
  | Ok urlObj =>
      let host := toLowerCase (hostname urlObj) in
      if includes host "youtube.com" || includes host "youtu.be"
      then Some "youtube"
      else if includes host "instagram.com"
      then Some "instagram"
      else None
  | Throw _ => None
  end.

(** Helper function to get YouTube download URL: [format.url]. *)
Definition getYouTubeDownloadUrl (w : World) (url : string) (info : Info)
  : H JSValue :=
  let! format := call CallChooseFormat (ytdl_chooseFormat w (formats info)) in
  ret (JStr (format_url format)).

(** [app.get('/api/video', limiter, async (req, res) => ...)]:
    the handler after the limiter. *)
Definition api_video (w : World) (req : Request) : H unit :=
  try_catch
    (if negb (present (query_url req))
     then respond 400 (error_body "URL is required")
     else
       let url := to_string (query_url req) in
       match detectPlatform url with
       | None =>
           respond 400
             (error_body
                "Unsupported platform. Please provide a valid YouTube or Instagram URL")
       | Some platform =>
           let! videoInfo :=
             if platform =? "youtube" then
               if negb (ytdl_validateURL w url)
               then respond 400 (error_body "Invalid YouTube URL")
               else
                 let! info := call (CallGetInfo url) (ytdl_getInfo w url) in
                 let! thumbnail := first_url (thumbnails info) in
                 let! download_url := getYouTubeDownloadUrl w url info in
                 ret (JObj [("success", JBool true);
                            ("platform", JStr "youtube");
                            ("title", JStr (title info));
                            ("thumbnail", JStr thumbnail);
                            ("duration", JStr (lengthSeconds info));
                            ("author", JStr (author_name info));
                            ("download_url", download_url)])
             else if platform =? "instagram" then
               let! igResponse :=
                 call (CallInstagramGetUrl url) (instagramGetUrl w url) in
               if (length (url_list igResponse) =? 0)%nat
               then respond 400 (error_body "No downloadable URL found")
               else
                 ret (JObj [("success", JBool true);
                            ("platform", JStr "instagram");
                            ("download_url", index0 (url_list igResponse));
                            ("type", JStr (media_type igResponse))])
             else ret JUndefined in
           respond 200 videoInfo
       end)
    (fun message => respond 500 (error_body message)).

(** [cors(corsOptions)] with a fixed origin: never an error; a preflight
    request is answered by the middleware itself. *)
Definition cors : Layer :=
  Use (fun req h st =>
         let h' :=
           if env_is NODE_ENV "production" then
             match origin req with
             | Some o =>
                 if o =? "https://your-frontend-domain.com"
                 then setHeader "Access-Control-Allow-Origin" o h
                 else h
             | None => h
             end
           else setHeader "Access-Control-Allow-Origin" "*" h in
         match method req with
         | OPTIONS =>
             (Finish {| status := 204; headers := h'; body := EmptyBody |}, st)
         | _ => (Continue h', st)
         end).

Definition root : Request -> Headers -> AppState -> Flow * AppState :=
  fun req h st =>
    (Finish
       (res_json 200
          (JObj [("success", JBool true);
                 ("name", JStr "Video Downloader API");
                 ("version", JStr "1.0.0");
                 ("description",
                  JStr "API for downloading videos from YouTube and Instagram");
                 ("endpoints",
                  JObj [("documentation", JStr "/api-docs");
                        ("video", JStr "/api/video?url=VIDEO_URL")])]) h),
     st).

(** Error handling middleware. *)
Definition error_middleware : Layer :=
  UseError (fun message req h st =>
    (Finish
       (res_json 500
          (JObj [("success", JBool false);
                 ("error", JStr "Internal Server Error");
                 ("message",
                  if env_is NODE_ENV "development" then JStr message
                  else JUndefined)]) h),
     st)).

(** 404 handler. *)
Definition not_found : Layer :=
  Use (fun req h st =>
    (Finish
       (res_json 404
          (JObj [("success", JBool false);
                 ("error", JStr "Not Found");
                 ("message", JStr "The requested resource does not exist")]) h),
     st)).

(** Add security headers. *)
Definition security_headers : Layer :=
  Use (fun req h st =>
    (Continue
       (setHeader "X-XSS-Protection" "1; mode=block"
          (setHeader "X-Frame-Options" "DENY"
             (setHeader "X-Content-Type-Options" "nosniff" h))),
     st)).

(** The layers, in the order of the [app.use] and [app.get] calls. *)
Definition stack (w : World) : list Layer :=
  [ cors;
    express_json;
    swagger_ui;
    app_get "/" root;
    app_get "/api/video" (then_ limiter (async_handler (api_video w)));
    error_middleware;
    not_found;
    security_headers ].

(** Loading the module.  Its top level calls [swaggerJsdoc] with a
    [definition] and no [apis] before it registers any route: an exception
    of that call ends the loading, and no server listens. *)
Definition load (w : World) : Exc (list Layer) :=
  match swaggerJsdoc false with
  | Ok _ => Ok (stack w)
  | Throw message => Throw message
  end.

End WithRuntime.

End Simple.

(** ** The cached variant (second revision of server.js) *)

Module Cached.

Section WithRuntime.

(** [process.env.NODE_ENV] *)
Variable NODE_ENV : option string.

(** Rate limiting. *)
Definition limiter_options : Options :=
  {| windowMs := 60 * 60 * 1000;
     max := 100;
     message :=
       error_body "Too many requests from this IP, please try again after an hour" |}.

Definition limiter : Request -> Headers -> AppState -> Flow * AppState :=
  rateLimit limiter_options.

(** Helper function to get YouTube download URL: the value returned is
    the stream [ytdl(url, { format, requestOptions }).on('error', ...)];
    an exception raised on the way is replaced by a fixed one.  The
    download that [ytdl] starts goes on after the handler has replied; if
    it fails, the listener rethrows and the process exits.  The model
    follows the process for as long as it runs. *)
Definition getYouTubeDownloadUrl (w : World) (url : string) (info : Info)
  : H JSValue :=
  try_catch
    (let! format := call CallChooseFormat (ytdl_chooseFormat w (formats info)) in
     call (CallYtdl url) (Ok (JStream url)))
    (fun _ => throw "Unable to process YouTube video. Please try again later.").

(** [app.get('/api/video', limiter, async (req, res) => ...)]:
    the handler after the limiter. *)
Definition api_video (w : World) (req : Request) : H unit :=
  try_catch
    (if negb (present (query_url req)) || negb (present (query_platform req))
     then respond 400 (error_body "URL and platform are required")
     else
       let url := to_string (query_url req) in
       let platform := to_string (query_platform req) in
       let cacheKey := "video_" ++ url in
       let! cachedData := cache_get (time req) cacheKey in
       if truthy cachedData then respond 200 cachedData
       else
         let! videoInfo :=
           if platform =? "youtube" then
             if negb (ytdl_validateURL w url)
             then respond 400 (error_body "Invalid YouTube URL")
             else
               try_catch
                 (let! info := call (CallGetInfo url) (ytdl_getInfo w url) in
                  let! thumbnail := first_url (thumbnails info) in
                  let! download_url := getYouTubeDownloadUrl w url info in
                  let videoInfo :=
                    JObj [("success", JBool true);
                          ("platform", JStr "youtube");
                          ("title", JStr (title info));
                          ("thumbnail", JStr thumbnail);
                          ("duration", JStr (lengthSeconds info));
                          ("author", JStr (author_name info));
                          ("download_url", download_url)] in
                  run! cache_set (time req) cacheKey videoInfo in
                  ret videoInfo)
                 (fun message =>
                    respond 400
                      (error_body ("Unable to process YouTube video. " ++ message)))
           else if platform =? "instagram" then
             try_catch
               (let! igResponse :=
                  call (CallInstagramGetUrl url) (instagramGetUrl w url) in
                if (length (url_list igResponse) =? 0)%nat
                then respond 400 (error_body "No downloadable URL found")
                else
                  let videoInfo :=
                    JObj [("success", JBool true);
                          ("platform", JStr "instagram");
                          ("download_url", index0 (url_list igResponse));
                          ("type", JStr (media_type igResponse))] in
                  run! cache_set (time req) cacheKey videoInfo in
                  ret videoInfo)
               (fun message =>
                  respond 400
                    (error_body ("Unable to process Instagram video. " ++ message)))
           else respond 400 (error_body "Unsupported platform") in
         respond 200 videoInfo)
    (fun message => respond 500 (error_body message)).

(** [compression()] and the performance monitor only observe. *)
Definition compression : Layer := Use (fun req h st => (Continue h, st)).
Definition performance_monitor : Layer := Use (fun req h st => (Continue h, st)).

Definition allowedOrigins : list string :=
  if env_is NODE_ENV "production"
  then ["https://instasave.world"; "https://www.instasave.world";
        "http://localhost:3000"]
  else ["http://localhost:3000"].

(** [cors({ origin: function (origin, callback) ... })]: a request
    without Origin passes, one from an origin outside the list is an
    error; a preflight request that passes is answered here. *)
Definition cors : Layer :=
  Use (fun req h st =>
         let allowed (h' : Headers) :=
           match method req with
           | OPTIONS =>
               (Finish {| status := 204; headers := h'; body := EmptyBody |}, st)
           | _ => (Continue h', st)
           end in
         match origin req with
         | None => allowed (setHeader "Access-Control-Allow-Credentials" "true" h)
         | Some o =>
             if existsb (String.eqb o) allowedOrigins
             then allowed (setHeader "Access-Control-Allow-Credentials" "true"
                             (setHeader "Access-Control-Allow-Origin" o h))
             else (Fail "CORS policy violation" h, st)
         end).

(** Add basic security headers. *)
Definition security_headers : Layer :=
  Use (fun req h st =>
    (Continue
       (setHeader "X-XSS-Protection" "1; mode=block"
          (setHeader "X-Content-Type-Options" "nosniff" h)),
     st)).

Definition ping : Request -> Headers -> AppState -> Flow * AppState :=
  fun req h st => (Finish (res_send "pong" h), st).

Definition root : Request -> Headers -> AppState -> Flow * AppState :=
  fun req h st =>
    (Finish
       (res_json 200
          (JObj [("success", JBool true);
                 ("name", JStr "Video Downloader API");
                 ("version", JStr "1.0.0");
                 ("description",
                  JStr "API for downloading videos from YouTube and Instagram");
                 ("endpoints",
                  JObj [("health", JStr "/ping");
                        ("documentation", JStr "/api-docs");
                        ("video", JStr "/api/video?url=VIDEO_URL")])]) h),
     st).

(** Error handling middleware. *)
Definition error_middleware : Layer :=
  UseError (fun message req h st =>
    let h' := setHeader "Content-Type" "application/json" h in
    if includes message "Sign in to confirm"
    then
      (Finish
         (res_json 403
            (error_body
               "This video requires age verification. Please try another video.")
            h'),
       st)
    else
      (Finish
         (res_json 500
            (error_body
               (if env_is NODE_ENV "production"
                then "An unexpected error occurred"
                else message))
            h'),
       st)).

(** 404 handler. *)
Definition not_found : Layer :=
  Use (fun req h st =>
    (Finish
       (res_json 404
          (JObj [("success", JBool false);
                 ("error", JStr "Not Found");
                 ("message", JStr "The requested resource does not exist")])
          (setHeader "Content-Type" "application/json" h)),
     st)).

(** The stack, in the order of the [app.use] and [app.get] calls. *)
Definition stack (w : World) : list Layer :=
  [ compression;
    performance_monitor;
    cors;
    security_headers;
    express_json;
    swagger_ui;
    app_get "/ping" ping;
    app_get "/" root;
    app_get "/api/video" (then_ limiter (async_handler (api_video w)));
    error_middleware;
    not_found ].

Definition app (w : World) (st : AppState) (req : Request)
  : option Response * AppState :=
  dispatch (stack w) None req [] st.

End WithRuntime.

End Cached.

(** ** Serving a sequence of requests *)

(** The cached application serving requests one after the other, each
    under the answers the libraries give at that moment. *)
Fixpoint serve (NODE_ENV : option string) (rs : list (World * Request))
         (st : AppState) : AppState :=
  match rs with
  | [] => st
  | (w, req) :: rest => serve NODE_ENV rest (snd (Cached.app NODE_ENV w st req))
  end.

(** The state of a freshly started process. *)
Definition initial : AppState :=
  {| app_cache := ∅; app_limits := ∅; app_calls := [] |}.

(** A success response: an object whose [success] is [true]. *)
Definition is_success (v : JSValue) : bool :=
  match field "success" v with
  | JBool true => true
  | _ => false
  end.

(** A request that gets as far as the [/api/video] route of the cached
    application: a GET for that path which passes the CORS check and the
    body parser. *)
Definition origin_allowed (NODE_ENV : option string) (req : Request) : bool :=
  match origin req with
  | None => true
  | Some o => existsb (String.eqb o) (Cached.allowedOrigins NODE_ENV)
  end.

Definition reaches_video (NODE_ENV : option string) (req : Request) : bool :=
  get_like (method req) && (path req =? "/api/video")
  && origin_allowed NODE_ENV req
  && match body_error req with None => true | Some _ => false end.


(** ** Vocabulary of the statements *)

(** [needle] occurs in [s]. *)
Definition occurs_in (needle s : string) : Prop :=
  exists before after, s = before ++ needle ++ after.

(** The lowercased hostname of the parsed [url] contains [needle]. *)
Definition host_has (new_URL : string -> Exc URL) (url needle : string) : Prop :=
  exists u, new_URL url = Ok u /\ occurs_in needle (toLowerCase (hostname u)).

(** The libraries answer so that the [platform] branch of [/api/video]
    can build its response for [url]. *)
Definition extractor_succeeds (w : World) (platform url : string) : bool :=
  if platform =? "youtube" then
    ytdl_validateURL w url &&
    match ytdl_getInfo w url with
    | Ok info =>
        negb (length (thumbnails info) =? 0)%nat &&
        match ytdl_chooseFormat w (formats info) with
        | Ok _ => true
        | Throw _ => false
        end
    | Throw _ => false
    end
  else if platform =? "instagram" then
    match instagramGetUrl w url with
    | Ok ig => negb (length (url_list ig) =? 0)%nat
    | Throw _ => false
    end
  else false.

(** The headers set on the response of the cached application by the time
    a route is reached: those of [cors], then the security headers. *)
Definition route_headers (req : Request) : Headers :=
  setHeader "X-XSS-Protection" "1; mode=block"
    (setHeader "X-Content-Type-Options" "nosniff"
       (match origin req with
        | None => setHeader "Access-Control-Allow-Credentials" "true" []
        | Some o =>
            setHeader "Access-Control-Allow-Credentials" "true"
              (setHeader "Access-Control-Allow-Origin" o [])
        end)).

(** The handler state seen from the application state. *)
Definition handler_state (st : AppState) : HState :=
  {| cache := app_cache st; calls := app_calls st |}.

(** Unfolding the control operators of a handler body. *)
Ltac step_handler :=
  cbv beta iota zeta
      delta [bind ret respond throw try_catch call cache_get cache_set
             first_url Cached.getYouTubeDownloadUrl Simple.getYouTubeDownloadUrl].

(** Every stored value is a success response. *)
Definition all_success (c : gmap string NodeCache.Entry) : Prop :=
  forall key e, c !! key = Some e -> is_success (NodeCache.value e) = true.

(** The response object built from an Instagram resolution. *)
Definition instagram_response (ig : IgResponse) : JSValue :=
  JObj [("success", JBool true);
        ("platform", JStr "instagram");
        ("download_url", index0 (url_list ig));
        ("type", JStr (media_type ig))].

(** The response object built from a YouTube extraction. *)
Definition youtube_response (info : Info) (thumbnail : string) (download_url : JSValue)
  : JSValue :=
  JObj [("success", JBool true);
        ("platform", JStr "youtube");
        ("title", JStr (title info));
        ("thumbnail", JStr thumbnail);
        ("duration", JStr (lengthSeconds info));
        ("author", JStr (author_name info));
        ("download_url", download_url)].





(** Closing a case in which the response is known and carries the
    expected headers, or lacks them. *)
Ltac read_headers :=
  cbn [fst]; intros [= <-]; split; reflexivity.

(** ** Concrete inputs for the examples *)

Module Examples.

(** A stand-in for [new URL] on the inputs used below: it reads the host
    of [http://host/...] and [https://host/...] where the host is made
    of lowercase letters, digits, dots and dashes, and rejects every
    other string. *)
Definition strip (p s : string) : option string :=
  if String.prefix p s
  then Some (substring (String.length p) (String.length s - String.length p) s)
  else None.

Fixpoint take_host (s : string) : string :=
  match s with
  | EmptyString => EmptyString
  | String c rest =>
      if (Ascii.eqb c "/" || Ascii.eqb c "?" || Ascii.eqb c "#")%char
      then EmptyString
      else String c (take_host rest)
  end.

Definition demo_URL (s : string) : Exc URL :=
  let parse rest :=
    let h := take_host rest in
    if h =? "" then Throw "Invalid URL" else Ok {| hostname := h |} in
  match strip "https://" s, strip "http://" s with
  | Some rest, _ => parse rest
  | None, Some rest => parse rest
  | None, None => Throw "Invalid URL"
  end.

Definition watch_url : string := "https://www.youtube.com/watch?v=dQw4w9WgXcQ".
Definition reel_url : string := "https://www.instagram.com/reel/Cabc123/".
Definition other_url : string := "https://example.com/video.mp4".

Definition mp4 : Format :=
  {| itag := 18;
     format_url := "https://rr1.googlevideo.com/videoplayback?itag=18";
     hasVideo := true; hasAudio := true |}.

Definition some_info : Info :=
  {| title := "Some title";
     thumbnails := ["https://i.ytimg.com/vi/dQw4w9WgXcQ/default.jpg"];
     lengthSeconds := "212";
     author_name := "Some channel";
     formats := [mp4] |}.

Definition some_media : IgResponse :=
  {| url_list := ["https://scontent.cdninstagram.com/v/1.mp4";
                  "https://scontent.cdninstagram.com/v/2.mp4"];
     media_type := "video" |}.

(** Every library call answers. *)
Definition good : World :=
  {| ytdl_validateURL := fun url => includes url "youtube.com/watch?v=";
     ytdl_getInfo := fun _ => Ok some_info;
     ytdl_chooseFormat := fun fs =>
       match fs with
       | f :: _ => Ok f
       | [] => Throw "No such format found: highest"
       end;
     instagramGetUrl := fun _ => Ok some_media |}.

(** The upstream refuses with the given message. *)
Definition refusing (message : string) : World :=
  {| ytdl_validateURL := fun url => includes url "youtube.com/watch?v=";
     ytdl_getInfo := fun _ => Throw message;
     ytdl_chooseFormat := fun _ => Throw message;
     instagramGetUrl := fun _ => Throw message |}.

(** The resolver finds no media. *)
Definition empty_media : World :=
  {| ytdl_validateURL := fun url => includes url "youtube.com/watch?v=";
     ytdl_getInfo := fun _ => Ok some_info;
     ytdl_chooseFormat := fun _ => Throw "No such format found: highest";
     instagramGetUrl := fun _ => Ok {| url_list := []; media_type := "video" |} |}.

Definition video_request (url : string) (platform : Param) (from : string) (t : Z)
  : Request :=
  {| method := GET; path := "/api/video";
     query_url := Some url; query_platform := platform;
     ip := from; origin := None; body_error := None; time := t |}.

Definition plain_get (p : string) (from : string) (t : Z) : Request :=
  {| method := GET; path := p;
     query_url := None; query_platform := None;
     ip := from; origin := None; body_error := None; time := t |}.

Definition fresh : HState := {| cache := ∅; calls := [] |}.

Definition client : string := "203.0.113.7".

(** A cache that holds a response for a url on neither platform. *)
Definition warm : HState :=
  {| cache := NodeCache.set ∅ 0 ("video_" ++ other_url) (instagram_response some_media);
     calls := [] |}.



End Examples.

(** ** Further concrete inputs *)

Module MoreExamples.

(** A video that comes without thumbnails. *)
Definition bare_info : Info :=
  {| title := "Some title";
     thumbnails := [];
     lengthSeconds := "212";
     author_name := "Some channel";
     formats := [Examples.mp4] |}.

Definition bare : World :=
  {| ytdl_validateURL := fun url => includes url "youtube.com/watch?v=";
     ytdl_getInfo := fun _ => Ok bare_info;
     ytdl_chooseFormat := fun fs =>
       match fs with
       | f :: _ => Ok f
       | [] => Throw "No such format found: highest"
       end;
     instagramGetUrl := fun _ => Ok Examples.some_media |}.

(** A request as a browser sends it: method, path and Origin header. *)
Definition browser_request (m : Method) (p : string) (from : option string)
           (malformed_body : option string) : Request :=
  {| method := m; path := p;
     query_url := None; query_platform := None;
     ip := Examples.client; origin := from; body_error := malformed_body;
     time := 0 |}.

End MoreExamples.
(** ** Vocabulary of the further statements *)

(** The body of the 404 handler. *)
Definition not_found_body : JSValue :=
  JObj [("success", JBool false);
        ("error", JStr "Not Found");
        ("message", JStr "The requested resource does not exist")].

(** The request matches a route or mount point of the cached variant. *)
Definition routed_cached (req : Request) : bool :=
  under "/api-docs" (path req)
  || (get_like (method req)
      && ((path req =? "/ping") || (path req =? "/") || (path req =? "/api/video"))).

(** ** The download page (third part of server.js) *)

Module Page.

(** What [downloadVideo()] leaves behind: the text of the status line and,
    if it navigated, the value assigned to [window.location.href]. *)
Record Outcome := { status_text : string; location_href : option string }.

(** [downloadVideo()], on the values of the url field and of the platform
    selector.  [encodeURIComponent] is the runtime's; it throws on a
    string that is not well-formed UTF-16. *)
Definition downloadVideo (encodeURIComponent : string -> Exc string)
           (videoUrl platform : string) : Outcome :=
  if videoUrl =? "" then
    {| status_text := "Please enter a URL"; location_href := None |}
  else
    match encodeURIComponent videoUrl with
    | Ok encoded =>
        {| status_text := "Download started!";
           location_href := Some ("/download/" ++ platform ++ "?url=" ++ encoded) |}
    | Throw _ =>
        {| status_text := "Error downloading video"; location_href := None |}
    end.

(** The values of the platform selector. *)
Definition platform_options : list string := ["youtube"; "instagram"].

(** The path of a relative reference: what precedes the query and the
    fragment. *)
Fixpoint href_path (href : string) : string :=
  match href with
  | EmptyString => EmptyString
  | String c rest =>
      if (Ascii.eqb c "?" || Ascii.eqb c "#")%char then EmptyString
      else String c (href_path rest)
  end.

End Page.

(** * Properties *)

Import Examples.

(** ** Strings *)

Lemma prefix_app (p s : string) :
  String.prefix p s = true <-> exists after, s = p ++ after.
Proof.
  revert s. induction p as [|c p IH]; intros s; simpl.
  - split; [intros _; exists s; reflexivity | intros _; now destruct s].
  - destruct s as [|d s].
    + split; [discriminate | intros [after Heq]; discriminate].
    + simpl. destruct (Ascii.ascii_dec c d) as [->|Hne].
      * rewrite IH. split; intros [after Heq]; exists after.
        -- now rewrite Heq.
        -- now injection Heq.
      * split; [discriminate |].
        intros [after Heq]. injection Heq as Hc _. congruence.
Qed.

Lemma includes_occurs (s needle : string) :
  includes s needle = true <-> occurs_in needle s.
Proof.
  induction s as [|c s IH]; cbn [includes].
  - rewrite orb_false_r, prefix_app. split.
    + intros [after Heq]. exists "", after. exact Heq.
    + intros [before [after Heq]]. destruct before; [now exists after | discriminate].
  - rewrite orb_true_iff, prefix_app, IH. split.
    + intros [[after Heq] | [before [after Heq]]].
      * exists "", after. exact Heq.
      * exists (String c before), after. simpl. now rewrite Heq.
    + intros [before [after Heq]]. destruct before as [|d before].
      * left. now exists after.
      * right. simpl in Heq. injection Heq as _ Heq. now exists before, after.
Qed.

Lemma includes_not_occurs (s needle : string) :
  includes s needle = false <-> ~ occurs_in needle s.
Proof.
  rewrite <- includes_occurs. destruct (includes s needle); split; congruence.
Qed.

(** ** Platform detection *)

Lemma host_has_parsed (new_URL : string -> Exc URL) (url needle : string) (u : URL) :
  new_URL url = Ok u ->
  host_has new_URL url needle <-> includes (toLowerCase (hostname u)) needle = true.
Proof.
  intros Hparse. rewrite includes_occurs. unfold host_has. split.
  - intros [u' [Hu' Hocc]]. rewrite Hparse in Hu'. now injection Hu' as ->.
  - intros Hocc. now exists u.
Qed.

Lemma host_has_unparsed (new_URL : string -> Exc URL) (url needle message : string) :
  new_URL url = Throw message -> ~ host_has new_URL url needle.
Proof.
  intros Hparse [u [Hu _]]. rewrite Hparse in Hu. discriminate.
Qed.

(** C7: [detectPlatform] is a total function of the string alone.  It
    answers 'youtube' exactly when the string parses as a URL whose
    lowercased hostname contains "youtube.com" or "youtu.be", 'instagram'
    exactly when the hostname contains "instagram.com" and neither of the
    YouTube patterns, and null in every other case; in particular a string
    on which [new URL] throws yields null, the exception being caught. *)
Theorem detectPlatform_spec (new_URL : string -> Exc URL) (url : string) :
  let yt := host_has new_URL url "youtube.com" \/ host_has new_URL url "youtu.be" in
  let ig := host_has new_URL url "instagram.com" in
  (Simple.detectPlatform new_URL url = Some "youtube" <-> yt)
  /\ (Simple.detectPlatform new_URL url = Some "instagram" <-> ig /\ ~ yt)
  /\ (Simple.detectPlatform new_URL url = None <-> ~ yt /\ ~ ig)
  /\ (forall message : string,
         new_URL url = Throw message -> Simple.detectPlatform new_URL url = None).
Proof.
  unfold Simple.detectPlatform.
  destruct (new_URL url) as [u|m] eqn:Hparse; cbv zeta.
  - rewrite !(host_has_parsed new_URL url _ u Hparse).
    destruct (includes (toLowerCase (hostname u)) "youtube.com");
      destruct (includes (toLowerCase (hostname u)) "youtu.be");
      destruct (includes (toLowerCase (hostname u)) "instagram.com");
      cbn [orb]; intuition congruence.
  - pose proof (host_has_unparsed new_URL url "youtube.com" m Hparse).
    pose proof (host_has_unparsed new_URL url "youtu.be" m Hparse).
    pose proof (host_has_unparsed new_URL url "instagram.com" m Hparse).
    intuition congruence.
Qed.

(** ** The route handler of the cached variant *)

Lemma present_Some (url : string) : url <> "" -> present (Some url) = true.
Proof.
  intros Hne. unfold present. now apply negb_true_iff, String.eqb_neq.
Qed.

Lemma is_success_truthy (v : JSValue) : is_success v = true -> truthy v = true.
Proof. now destruct v. Qed.

(** Copying keeps the fields of an object, so a copy of a success
    response is one. *)
Lemma assoc_clone (name : string) (fields : list (string * JSValue)) :
  assoc name (List.map (fun '(k, x) => (k, clone x)) fields) = clone (assoc name fields).
Proof.
  induction fields as [|[k x] fields IH]; [reflexivity|].
  cbn [List.map assoc]. now destruct (k =? name).
Qed.

Lemma is_success_clone (v : JSValue) : is_success (clone v) = is_success v.
Proof.
  unfold is_success, field. destruct v; try reflexivity.
  cbn [clone]. rewrite assoc_clone. now destruct (assoc "success" fields).
Qed.

(** A lookup that finds a truthy value ends the request at once. *)
Lemma cached_hit (w : World) (req : Request) (s : HState) :
  present (query_url req) = true ->
  present (query_platform req) = true ->
  truthy (NodeCache.get (cache s) (time req)
            ("video_" ++ to_string (query_url req))) = true ->
  Cached.api_video w req s =
  (Sent {| code := 200;
           payload := JsonBody (NodeCache.get (cache s) (time req)
                                  ("video_" ++ to_string (query_url req))) |}, s).
Proof.
  intros Hurl Hplat Hhit. unfold Cached.api_video. step_handler.
  rewrite Hurl, Hplat. cbn [negb orb]. rewrite Hhit. reflexivity.
Qed.

(** C10: when the cache holds a live success response for the url, the
    cached variant answers 200 with exactly that response for every
    non-empty [platform] value, whatever it is and whatever the url's
    host: no platform check, no url validation and no library call takes
    place, and the state is left as it was. *)
Theorem cache_hit_precedes_platform_dispatch
        (w : World) (req : Request) (s : HState) (url : string) (v : JSValue) :
  query_url req = Some url ->
  url <> "" ->
  present (query_platform req) = true ->
  NodeCache.get (cache s) (time req) ("video_" ++ url) = v ->
  is_success v = true ->
  Cached.api_video w req s = (Sent {| code := 200; payload := JsonBody v |}, s).
Proof.
  intros Hurl Hne Hplat Hget Hok.
  rewrite (cached_hit w req s); rewrite ?Hurl; cbn [to_string].
  - now rewrite Hget.
  - now apply present_Some.
  - exact Hplat.
  - rewrite Hget. now apply is_success_truthy.
Qed.

(** What the handler does to the cache: nothing, or one [set] of the
    success response it sends, after the libraries answered. *)
Lemma cached_api_video_cache (w : World) (req : Request) (s : HState) :
  let out := Cached.api_video w req s in
  (cache (snd out) = cache s
   \/ exists v,
       fst out = Sent {| code := 200; payload := JsonBody v |}
       /\ is_success v = true
       /\ extractor_succeeds w (to_string (query_platform req))
            (to_string (query_url req)) = true
       /\ cache (snd out) =
          NodeCache.set (cache s) (time req)
            ("video_" ++ to_string (query_url req)) v)
  /\ (forall r, fst out = Sent r -> code r <> 200%Z -> cache (snd out) = cache s)
  /\ (exists r, fst out = Sent r).
Proof.
  cbv zeta. unfold Cached.api_video. step_handler.
  assert (Hquiet : forall (b : bool) (r : Reply) (s0 : HState),
    cache s0 = cache s ->
    (cache (snd (@Sent unit r, s0)) = cache s
     \/ exists v,
         fst (@Sent unit r, s0) = Sent {| code := 200; payload := JsonBody v |}
         /\ is_success v = true
         /\ b = true
         /\ cache (snd (@Sent unit r, s0)) =
            NodeCache.set (cache s) (time req)
              ("video_" ++ to_string (query_url req)) v)
    /\ (forall r', fst (@Sent unit r, s0) = Sent r' -> code r' <> 200%Z ->
                   cache (snd (@Sent unit r, s0)) = cache s)
    /\ (exists r', fst (@Sent unit r, s0) = Sent r')).
  { intros b r s0 Hs0. cbn [fst snd].
    split; [now left | split; [intros; exact Hs0 | now exists r]]. }
  destruct (negb (present (query_url req)) || negb (present (query_platform req)));
    [now apply Hquiet|].
  destruct (truthy _); [now apply Hquiet|].
  unfold extractor_succeeds.
  destruct (to_string (query_platform req) =? "youtube").
  - destruct (ytdl_validateURL w _); cbn [negb andb]; [|now apply Hquiet].
    destruct (ytdl_getInfo w _) as [info|m]; cbv beta iota; [|now apply Hquiet].
    destruct (thumbnails info) as [|th ths]; cbn [lookup list_lookup]; cbv beta iota;
      [now apply Hquiet|].
    destruct (ytdl_chooseFormat w _) as [f|m]; cbv beta iota; [|now apply Hquiet].
    cbn [fst snd cache]. split; [right; eexists; repeat split; reflexivity|].
    split; [intros r Hr Hc; injection Hr as <-; now elim Hc | eexists; reflexivity].
  - destruct (to_string (query_platform req) =? "instagram"); [|now apply Hquiet].
    destruct (instagramGetUrl w _) as [ig|m]; cbv beta iota; [|now apply Hquiet].
    destruct (url_list ig) as [|u us]; cbn [length Nat.eqb negb]; cbv beta iota;
      [now apply Hquiet|].
    cbn [fst snd cache]. split; [right; eexists; repeat split; reflexivity|].
    split; [intros r Hr Hc; injection Hr as <-; now elim Hc | eexists; reflexivity].
Qed.

(** The handler always answers: the request is never left pending, and
    no exception leaves it. *)
Lemma cached_api_video_answers (w : World) (req : Request) (s : HState) :
  exists r, fst (Cached.api_video w req s) = Sent r.
Proof. apply (cached_api_video_cache w req s). Qed.

Lemma all_success_set (c : gmap string NodeCache.Entry) (now : Z) (key : string)
      (v : JSValue) :
  all_success c -> is_success v = true -> all_success (NodeCache.set c now key v).
Proof.
  intros Hc Hv k e. unfold NodeCache.set. rewrite lookup_insert.
  case_decide; [intros [= <-]; cbn [NodeCache.value]; now rewrite is_success_clone
               | apply Hc].
Qed.

Lemma cached_api_video_all_success (w : World) (req : Request) (s : HState) :
  all_success (cache s) -> all_success (cache (snd (Cached.api_video w req s))).
Proof.
  intros Hc.
  destruct (cached_api_video_cache w req s) as [[Hsame | [v [_ [Hv [_ Hset]]]]] _].
  - now rewrite Hsame.
  - rewrite Hset. now apply all_success_set.
Qed.

(** ** The cached application as a whole *)

(** A request that reaches the [/api/video] route is counted by the
    limiter and then, if admitted, answered by the handler. *)
Lemma cached_app_video (env : option string) (w : World) (st : AppState) (req : Request) :
  reaches_video env req = true ->
  let win := increment Cached.limiter_options (app_limits st) (ip req) (time req) in
  let limits' := <[ip req := win]> (app_limits st) in
  let out := Cached.api_video w req (handler_state st) in
  Cached.app env w st req =
  if (hits win <=? 100)%nat then
    (match fst out with
     | Sent r =>
         Some {| status := code r;
                 headers := setHeader "Content-Type" "application/json; charset=utf-8"
                              (route_headers req);
                 body := payload r |}
     | Val _ | Thrown _ => None
     end,
     {| app_cache := cache (snd out); app_limits := limits'; app_calls := calls (snd out) |})
  else
    (Some (res_json 429 (message Cached.limiter_options) (route_headers req)),
     {| app_cache := app_cache st; app_limits := limits'; app_calls := app_calls st |}).
Proof.
  unfold reaches_video, origin_allowed. intros Hreach.
  apply andb_true_iff in Hreach as [Hreach Hbody].
  apply andb_true_iff in Hreach as [Hreach Horigin].
  apply andb_true_iff in Hreach as [Hmethod Hpath].
  apply String.eqb_eq in Hpath.
  destruct (body_error req) eqn:Hb; [discriminate|].
  assert (Hdocs : under "/api-docs" "/api/video" = false) by reflexivity.
  assert (Hping : ("/api/video" =? "/ping") = false) by reflexivity.
  assert (Hroot : ("/api/video" =? "/") = false) by reflexivity.
  assert (Hvid : ("/api/video" =? "/api/video") = true) by reflexivity.
  cbv zeta.
  unfold Cached.app, Cached.stack, Cached.compression, Cached.performance_monitor,
    Cached.cors, Cached.security_headers, express_json, swagger_ui, app_get,
    route_headers, handler_state.
  cbn [dispatch].
  destruct (origin req) as [o|] eqn:Ho; rewrite ?Horigin;
    (destruct (method req) eqn:Hm; try discriminate Hmethod);
    cbn [dispatch]; rewrite Hb; cbn [dispatch]; rewrite Hpath, Hdocs;
    cbn [dispatch get_like andb]; rewrite Hping; cbn [dispatch];
    rewrite Hroot; cbn [dispatch]; rewrite Hvid;
    unfold then_, Cached.limiter, rateLimit, async_handler;
    cbn [max Cached.limiter_options app_cache app_limits app_calls];
    destruct (hits _ <=? 100)%nat; try reflexivity.
  all: destruct (Cached.api_video w req _) as [[a|m|r] s']; reflexivity.
Qed.

(** Every other request leaves the state of the process as it was. *)
Lemma cached_app_elsewhere (env : option string) (w : World) (st : AppState) (req : Request) :
  reaches_video env req = false ->
  snd (Cached.app env w st req) = st.
Proof.
  unfold reaches_video, origin_allowed. intros Hreach.
  unfold Cached.app, Cached.stack, Cached.compression, Cached.performance_monitor,
    Cached.cors, Cached.security_headers, express_json, swagger_ui, app_get,
    Cached.error_middleware, Cached.not_found, Cached.ping, Cached.root.
  cbn [dispatch].
  destruct (origin req) as [o|];
    [destruct (existsb (String.eqb o) (Cached.allowedOrigins env))|];
    try (cbn [dispatch]; now destruct (includes _ _)).
  all: destruct (body_error req);
    [destruct (method req); cbn [dispatch]; try reflexivity; now destruct (includes _ _)|].
  all: destruct (method req); cbn [dispatch get_like andb]; try reflexivity.
  all: destruct (under "/api-docs" (path req)); cbn [dispatch]; try reflexivity.
  all: destruct (path req =? "/ping"); cbn [dispatch]; try reflexivity.
  all: destruct (path req =? "/"); cbn [dispatch]; try reflexivity.
  all: destruct (path req =? "/api/video"); cbn [dispatch]; try reflexivity;
    try discriminate Hreach.
Qed.


(** The cache after one request: as before, or as the handler left it. *)
Lemma cached_app_cache (env : option string) (w : World) (st : AppState) (req : Request) :
  app_cache (snd (Cached.app env w st req)) = app_cache st
  \/ (reaches_video env req = true
      /\ app_cache (snd (Cached.app env w st req)) =
         cache (snd (Cached.api_video w req (handler_state st)))).
Proof.
  destruct (reaches_video env req) eqn:Hreach.
  - rewrite (cached_app_video env w st req Hreach). cbv zeta.
    destruct (hits _ <=? 100)%nat; [right | left]; auto.
  - left. now rewrite (cached_app_elsewhere env w st req Hreach).
Qed.

Lemma cached_app_all_success (env : option string) (w : World) (st : AppState)
      (req : Request) :
  all_success (app_cache st) ->
  all_success (app_cache (snd (Cached.app env w st req))).
Proof.
  intros Hc. destruct (cached_app_cache env w st req) as [-> | [_ ->]]; [exact Hc|].
  now apply cached_api_video_all_success.
Qed.

Lemma serve_all_success (env : option string) (rs : list (World * Request))
      (st : AppState) :
  all_success (app_cache st) -> all_success (app_cache (serve env rs st)).
Proof.
  revert st. induction rs as [|[w req] rs IH]; intros st Hc; cbn [serve].
  - exact Hc.
  - apply IH. now apply cached_app_all_success.
Qed.

(** C3: in the cached variant the handler touches the cache in one way
    only: after the libraries answered for the requested platform it
    stores, under the url's key, the success response it sends.  On every
    other path (missing parameters, unsupported platform, invalid YouTube
    url, empty Instagram list, an exception of a library) the reply is not
    a 200 and the cache is what it was; the same holds for the application
    as a whole, whatever the route.  Hence every value found in the cache
    of a running process is a success response. *)
Theorem cache_written_only_after_success
        (env : option string) (w : World) (req : Request) (st : AppState) :
  let out := Cached.api_video w req (handler_state st) in
  (cache (snd out) = app_cache st
   \/ exists v,
       fst out = Sent {| code := 200; payload := JsonBody v |}
       /\ is_success v = true
       /\ extractor_succeeds w (to_string (query_platform req))
            (to_string (query_url req)) = true
       /\ cache (snd out) =
          NodeCache.set (app_cache st) (time req)
            ("video_" ++ to_string (query_url req)) v)
  /\ (forall r, fst out = Sent r -> code r <> 200%Z -> cache (snd out) = app_cache st)
  /\ (forall r, fst (Cached.app env w st req) = Some r -> status r <> 200%Z ->
                app_cache (snd (Cached.app env w st req)) = app_cache st)
  /\ (forall (rs : list (World * Request)) (key : string) (e : NodeCache.Entry),
         app_cache (serve env rs initial) !! key = Some e ->
         is_success (NodeCache.value e) = true).
Proof.
  cbv zeta.
  destruct (cached_api_video_cache w req (handler_state st)) as [Hwrite [Hfail _]].
  split; [exact Hwrite|]. split; [exact Hfail|]. split.
  - intros r Hr Hstatus.
    destruct (reaches_video env req) eqn:Hreach.
    + revert Hr. rewrite (cached_app_video env w st req Hreach). cbv zeta.
      destruct (hits _ <=? 100)%nat; cbn [fst snd app_cache]; [|reflexivity].
      destruct (fst (Cached.api_video w req (handler_state st))) as [a|m|r0] eqn:Hout;
        try discriminate.
      intros [= <-]. apply (Hfail r0); [reflexivity | exact Hstatus].
    + now rewrite (cached_app_elsewhere env w st req Hreach).
  - intros rs. apply serve_all_success. intros key e. cbn [initial app_cache].
    rewrite lookup_empty. discriminate.
Qed.

(** ** Cache hits *)

(** A 200 reply on a lookup that found nothing comes from a fresh
    extraction, whose response has just been stored under the url's key;
    it is the YouTube response with the stream, or the Instagram one. *)
Lemma cached_miss_success (w : World) (req : Request) (s : HState) (v : JSValue) :
  truthy (NodeCache.get (cache s) (time req)
            ("video_" ++ to_string (query_url req))) = false ->
  fst (Cached.api_video w req s) = Sent {| code := 200; payload := JsonBody v |} ->
  is_success v = true
  /\ present (query_url req) = true
  /\ cache (snd (Cached.api_video w req s)) =
     NodeCache.set (cache s) (time req) ("video_" ++ to_string (query_url req)) v
  /\ ((to_string (query_platform req) = "youtube"
       /\ exists info thumbnail,
           v = youtube_response info thumbnail (JStream (to_string (query_url req))))
      \/ (to_string (query_platform req) = "instagram"
          /\ exists ig first rest,
              url_list ig = first :: rest /\ v = instagram_response ig)).
Proof.
  intros Hmiss. unfold Cached.api_video. step_handler.
  destruct (present (query_url req)); cbn [negb orb]; [|discriminate].
  destruct (negb (present (query_platform req))); [discriminate|].
  rewrite Hmiss.
  destruct (to_string (query_platform req) =? "youtube") eqn:Hyt.
  - apply String.eqb_eq in Hyt.
    destruct (ytdl_validateURL w _); cbn [negb]; [|discriminate].
    destruct (ytdl_getInfo w _) as [info|m]; cbv beta iota; [|discriminate].
    destruct (thumbnails info) as [|th ths]; cbn [lookup list_lookup]; cbv beta iota;
      [discriminate|].
    destruct (ytdl_chooseFormat w _) as [f|m]; cbv beta iota; [|discriminate].
    cbn [fst snd cache]. intros [= <-]. repeat split. left. split; [exact Hyt|].
    now exists info, th.
  - destruct (to_string (query_platform req) =? "instagram") eqn:Hig; [|discriminate].
    apply String.eqb_eq in Hig.
    destruct (instagramGetUrl w _) as [ig|m]; cbv beta iota; [|discriminate].
    destruct (url_list ig) as [|u us] eqn:Hlist; cbn [length Nat.eqb negb];
      cbv beta iota; [discriminate|].
    cbn [fst snd cache]. intros [= <-]. repeat split. right. split; [exact Hig|].
    exists ig, u, us. split; [exact Hlist|]. unfold instagram_response.
    now rewrite Hlist.
Qed.

Lemma get_after_set (c : gmap string NodeCache.Entry) (t0 t : Z) (key : string)
      (v : JSValue) :
  NodeCache.get (NodeCache.set c t0 key v) t key =
  if (t <=? t0 + 3600 * 1000)%Z then clone (clone v) else JUndefined.
Proof.
  unfold NodeCache.get, NodeCache.set. rewrite lookup_insert_eq. reflexivity.
Qed.

(** C4, on the code: after a first request for a url that was answered
    200 from a fresh extraction, the cache holds a copy of that response
    under the key "video_" + url, with an expiry 3600 seconds after the
    insertion.  A second request for the same url (with any non-empty
    platform) arriving less than 3600 seconds later, in any state whose
    entry for the key is that one, is answered 200 with the cache's copy
    whatever the libraries would now say; the state it leaves is the
    state it found, so no call into a library is made, and past the
    expiry the entry is no longer found.  For an Instagram response the
    copy is the response that was sent first.  For a YouTube response it
    is not: the first reply carries the stream object as [download_url],
    the second a copy of it, and the two bodies differ. *)
Theorem repeated_request_served_from_cache
        (w1 w2 : World) (r1 r2 : Request) (s1 s2 : HState) (v : JSValue) :
  let key := "video_" ++ to_string (query_url r1) in
  let after := snd (Cached.api_video w1 r1 s1) in
  let served := NodeCache.get (cache s2) (time r2) key in
  truthy (NodeCache.get (cache s1) (time r1) key) = false ->
  fst (Cached.api_video w1 r1 s1) = Sent {| code := 200; payload := JsonBody v |} ->
  query_url r2 = query_url r1 ->
  present (query_platform r2) = true ->
  (time r1 <= time r2 < time r1 + 3600 * 1000)%Z ->
  cache s2 !! key = cache after !! key ->
  Cached.api_video w2 r2 s2 = (Sent {| code := 200; payload := JsonBody served |}, s2)
  /\ calls (snd (Cached.api_video w2 r2 s2)) = calls s2
  /\ cache after !! key =
     Some {| NodeCache.value := clone v;
             NodeCache.expires := (time r1 + 3600 * 1000)%Z |}
  /\ (forall t : Z, (time r1 + 3600 * 1000 < t)%Z ->
                    NodeCache.get (cache after) t key = JUndefined)
  /\ (to_string (query_platform r1) = "instagram" -> served = v)
  /\ (to_string (query_platform r1) = "youtube" ->
      served <> v
      /\ field "download_url" v = JStream (to_string (query_url r1))
      /\ field "download_url" served = JStreamCopy (to_string (query_url r1))).
Proof.
  cbv zeta. intros Hmiss Hfirst Hurl Hplat Htime Hentry.
  destruct (cached_miss_success w1 r1 s1 v Hmiss Hfirst)
    as [Hv [Hpresent [Hset Hshape]]].
  rewrite Hset in Hentry |- *.
  assert (Hget : NodeCache.get (cache s2) (time r2)
                   ("video_" ++ to_string (query_url r1)) = clone (clone v)).
  { unfold NodeCache.get at 1. rewrite Hentry.
    unfold NodeCache.set. rewrite lookup_insert_eq.
    cbn [NodeCache.expires NodeCache.value]. unfold NodeCache.stdTTL.
    destruct (Z.leb_spec (time r2) (time r1 + 3600 * 1000)); [reflexivity | lia]. }
  rewrite Hget.
  assert (Hreply : Cached.api_video w2 r2 s2 =
                   (Sent {| code := 200; payload := JsonBody (clone (clone v)) |}, s2)).
  { rewrite (cached_hit w2 r2 s2); rewrite ?Hurl, ?Hget.
    - reflexivity.
    - exact Hpresent.
    - exact Hplat.
    - apply is_success_truthy. now rewrite !is_success_clone. }
  split; [exact Hreply|]. split; [now rewrite Hreply|]. split.
  { unfold NodeCache.set. now rewrite lookup_insert_eq. }
  split.
  { intros t Ht. rewrite get_after_set.
    destruct (Z.leb_spec t (time r1 + 3600 * 1000)); [lia | reflexivity]. }
  split.
  - intros Hig.
    destruct Hshape as [[Hyt _] | [_ [ig [first [rest [Hlist ->]]]]]];
      [rewrite Hig in Hyt; discriminate|].
    unfold instagram_response. now rewrite Hlist.
  - intros Hyt.
    destruct Hshape as [[_ [info [thumbnail ->]]] | [Hig _]];
      [|rewrite Hyt in Hig; discriminate].
    repeat split. discriminate.
Qed.

(** ** The platform branches *)

(** The simple variant on a url detected as Instagram. *)
Lemma simple_instagram (new_URL : string -> Exc URL) (w : World) (req : Request)
      (s : HState) (url : string) :
  query_url req = Some url ->
  url <> "" ->
  Simple.detectPlatform new_URL url = Some "instagram" ->
  Simple.api_video new_URL w req s =
  match instagramGetUrl w url with
  | Ok ig =>
      (Sent (if (length (url_list ig) =? 0)%nat
             then {| code := 400;
                     payload := JsonBody (error_body "No downloadable URL found") |}
             else {| code := 200;
                     payload := JsonBody (instagram_response ig) |}),
       {| cache := cache s; calls := calls s ++ [CallInstagramGetUrl url] |})
  | Throw message =>
      (Sent {| code := 500; payload := JsonBody (error_body message) |},
       {| cache := cache s; calls := calls s ++ [CallInstagramGetUrl url] |})
  end.
Proof.
  intros Hurl Hne Hdetect. unfold Simple.api_video. step_handler.
  rewrite Hurl, (present_Some url Hne). cbn [negb to_string].
  rewrite Hdetect.
  change ("instagram" =? "youtube") with false.
  change ("instagram" =? "instagram") with true. cbv beta iota.
  destruct (instagramGetUrl w url) as [ig|m]; [|reflexivity].
  now destruct (length (url_list ig) =? 0)%nat.
Qed.

(** The cached variant on an Instagram request that misses the cache. *)
Lemma cached_instagram (w : World) (req : Request) (s : HState) (url : string) :
  query_url req = Some url ->
  url <> "" ->
  query_platform req = Some "instagram" ->
  truthy (NodeCache.get (cache s) (time req) ("video_" ++ url)) = false ->
  Cached.api_video w req s =
  match instagramGetUrl w url with
  | Ok ig =>
      if (length (url_list ig) =? 0)%nat
      then (Sent {| code := 400;
                    payload := JsonBody (error_body "No downloadable URL found") |},
            {| cache := cache s; calls := calls s ++ [CallInstagramGetUrl url] |})
      else (Sent {| code := 200; payload := JsonBody (instagram_response ig) |},
            {| cache := NodeCache.set (cache s) (time req) ("video_" ++ url)
                          (instagram_response ig);
               calls := calls s ++ [CallInstagramGetUrl url] |})
  | Throw message =>
      (Sent {| code := 400;
               payload := JsonBody
                            (error_body ("Unable to process Instagram video. " ++ message)) |},
       {| cache := cache s; calls := calls s ++ [CallInstagramGetUrl url] |})
  end.
Proof.
  intros Hurl Hne Hplat Hmiss. unfold Cached.api_video. step_handler.
  rewrite Hurl, Hplat, (present_Some url Hne). cbn [negb orb to_string present].
  change ("instagram" =? "") with false. cbn [negb].
  rewrite Hmiss.
  change ("instagram" =? "youtube") with false.
  change ("instagram" =? "instagram") with true. cbv beta iota.
  destruct (instagramGetUrl w url) as [ig|m]; [|reflexivity].
  now destruct (length (url_list ig) =? 0)%nat.
Qed.

(** C5: on the Instagram path of either variant (the url detected as
    'instagram' in the simple one; platform 'instagram' and no cached
    response in the cached one), once the resolver has answered: an empty
    [url_list] gives 400 with success:false and 'No downloadable URL
    found'; otherwise the reply is 200 with success:true, platform
    'instagram', [download_url] the first element of [url_list] and [type]
    the resolver's type tag. *)
Theorem instagram_first_url_or_400
        (new_URL : string -> Exc URL) (w : World) (req : Request) (s : HState)
        (url : string) (ig : IgResponse) :
  query_url req = Some url ->
  url <> "" ->
  instagramGetUrl w url = Ok ig ->
  let reply :=
    match url_list ig with
    | [] => {| code := 400;
               payload := JsonBody (error_body "No downloadable URL found") |}
    | first :: _ =>
        {| code := 200;
           payload := JsonBody (JObj [("success", JBool true);
                                      ("platform", JStr "instagram");
                                      ("download_url", JStr first);
                                      ("type", JStr (media_type ig))]) |}
    end in
  (Simple.detectPlatform new_URL url = Some "instagram" ->
   fst (Simple.api_video new_URL w req s) = Sent reply)
  /\ (query_platform req = Some "instagram" ->
      truthy (NodeCache.get (cache s) (time req) ("video_" ++ url)) = false ->
      fst (Cached.api_video w req s) = Sent reply).
Proof.
  intros Hurl Hne Hig. cbv zeta. split.
  - intros Hdetect.
    rewrite (simple_instagram new_URL w req s url Hurl Hne Hdetect).
    rewrite Hig. cbn [fst]. unfold instagram_response.
    now destruct (url_list ig).
  - intros Hplat Hmiss.
    rewrite (cached_instagram w req s url Hurl Hne Hplat Hmiss), Hig.
    unfold instagram_response. now destruct (url_list ig).
Qed.

(** C6, as the code has it: in the simple variant a request whose url is
    not detected as YouTube or Instagram (unparseable, or a hostname with
    none of the three patterns) is answered 400, success:false,
    'Unsupported platform. Please provide a valid YouTube or Instagram
    URL'.  The cached variant never looks at the url's host: there, on a
    cache miss, it is a [platform] parameter other than 'youtube' and
    'instagram' that is answered 400, success:false, 'Unsupported
    platform'.  Neither reply touches the state. *)
Theorem unsupported_platform_rejected
        (new_URL : string -> Exc URL) (w : World) (req : Request) (s : HState)
        (url : string) :
  query_url req = Some url ->
  url <> "" ->
  (Simple.detectPlatform new_URL url = None ->
   Simple.api_video new_URL w req s =
   (Sent {| code := 400;
            payload :=
              JsonBody
                (error_body
                   "Unsupported platform. Please provide a valid YouTube or Instagram URL") |},
    s))
  /\ (forall platform : string,
         query_platform req = Some platform ->
         platform <> "" -> platform <> "youtube" -> platform <> "instagram" ->
         truthy (NodeCache.get (cache s) (time req) ("video_" ++ url)) = false ->
         Cached.api_video w req s =
         (Sent {| code := 400; payload := JsonBody (error_body "Unsupported platform") |},
          s)).
Proof.
  intros Hurl Hne. split.
  - intros Hdetect. unfold Simple.api_video. step_handler.
    rewrite Hurl, (present_Some url Hne). cbn [negb to_string].
    now rewrite Hdetect.
  - intros platform Hplat Hp Hyt Hig Hmiss. unfold Cached.api_video. step_handler.
    rewrite Hurl, Hplat, (present_Some url Hne), (present_Some platform Hp).
    cbn [negb orb to_string]. rewrite Hmiss.
    apply String.eqb_neq in Hyt, Hig. now rewrite Hyt, Hig.
Qed.

(** The claim as stated fails in the cached variant: for a url on
    example.com, which [detectPlatform] classifies as neither platform, an
    explicit platform 'youtube' is answered 'Invalid YouTube URL' and an
    explicit platform 'instagram' is handed to the resolver, whose failure
    is reported as such; neither reply is the unsupported-platform error. *)
Lemma explicit_platform_ignores_host :
  Simple.detectPlatform demo_URL other_url = None
  /\ fst (Cached.api_video (refusing "Invalid URL")
            (video_request other_url (Some "youtube") "203.0.113.7" 0) fresh)
     = Sent {| code := 400; payload := JsonBody (error_body "Invalid YouTube URL") |}
  /\ fst (Cached.api_video (refusing "Invalid URL")
            (video_request other_url (Some "instagram") "203.0.113.7" 0) fresh)
     = Sent {| code := 400;
               payload := JsonBody
                            (error_body "Unable to process Instagram video. Invalid URL") |}
  /\ error_body "Invalid YouTube URL" <> error_body "Unsupported platform"
  /\ includes (toLowerCase "Invalid YouTube URL") "unsupported platform" = false
  /\ includes (toLowerCase "Unable to process Instagram video. Invalid URL")
       "unsupported platform" = false.
Proof.
  repeat split; try reflexivity. discriminate.
Qed.

(** ** The YouTube branch *)

(** The cached variant on a YouTube request that misses the cache and
    passes url validation. *)
Lemma cached_youtube (w : World) (req : Request) (s : HState) (url : string) :
  query_url req = Some url ->
  url <> "" ->
  query_platform req = Some "youtube" ->
  truthy (NodeCache.get (cache s) (time req) ("video_" ++ url)) = false ->
  ytdl_validateURL w url = true ->
  Cached.api_video w req s =
  match ytdl_getInfo w url with
  | Throw message =>
      (Sent {| code := 400;
               payload := JsonBody
                            (error_body ("Unable to process YouTube video. " ++ message)) |},
       {| cache := cache s; calls := calls s ++ [CallGetInfo url] |})
  | Ok info =>
      match thumbnails info with
      | [] =>
          (Sent {| code := 400;
                   payload :=
                     JsonBody
                       (error_body
                          ("Unable to process YouTube video. " ++
                           "Cannot read properties of undefined (reading 'url')")) |},
           {| cache := cache s; calls := calls s ++ [CallGetInfo url] |})
      | thumbnail :: _ =>
          match ytdl_chooseFormat w (formats info) with
          | Throw _ =>
              (Sent {| code := 400;
                       payload :=
                         JsonBody
                           (error_body
                              ("Unable to process YouTube video. " ++
                               "Unable to process YouTube video. Please try again later.")) |},
               {| cache := cache s;
                  calls := (calls s ++ [CallGetInfo url]) ++ [CallChooseFormat] |})
          | Ok _ =>
              (Sent {| code := 200;
                       payload := JsonBody (youtube_response info thumbnail (JStream url)) |},
               {| cache := NodeCache.set (cache s) (time req) ("video_" ++ url)
                             (youtube_response info thumbnail (JStream url));
                  calls := ((calls s ++ [CallGetInfo url]) ++ [CallChooseFormat])
                             ++ [CallYtdl url] |})
          end
      end
  end.
Proof.
  intros Hurl Hne Hplat Hmiss Hvalid. unfold Cached.api_video. step_handler.
  rewrite Hurl, Hplat, (present_Some url Hne). cbn [negb orb to_string present].
  change ("youtube" =? "") with false. cbn [negb].
  rewrite Hmiss.
  change ("youtube" =? "youtube") with true. cbv beta iota.
  rewrite Hvalid. cbn [negb].
  destruct (ytdl_getInfo w url) as [info|m]; [|reflexivity].
  destruct (thumbnails info) as [|th ths]; [reflexivity|].
  cbn [lookup list_lookup]. cbv beta iota.
  now destruct (ytdl_chooseFormat w (formats info)).
Qed.

(** The simple variant on a url detected as YouTube that passes url
    validation. *)
Lemma simple_youtube (new_URL : string -> Exc URL) (w : World) (req : Request)
      (s : HState) (url : string) :
  query_url req = Some url ->
  url <> "" ->
  Simple.detectPlatform new_URL url = Some "youtube" ->
  ytdl_validateURL w url = true ->
  Simple.api_video new_URL w req s =
  match ytdl_getInfo w url with
  | Throw message =>
      (Sent {| code := 500; payload := JsonBody (error_body message) |},
       {| cache := cache s; calls := calls s ++ [CallGetInfo url] |})
  | Ok info =>
      match thumbnails info with
      | [] =>
          (Sent {| code := 500;
                   payload :=
                     JsonBody
                       (error_body "Cannot read properties of undefined (reading 'url')") |},
           {| cache := cache s; calls := calls s ++ [CallGetInfo url] |})
      | thumbnail :: _ =>
          match ytdl_chooseFormat w (formats info) with
          | Throw message =>
              (Sent {| code := 500; payload := JsonBody (error_body message) |},
               {| cache := cache s;
                  calls := (calls s ++ [CallGetInfo url]) ++ [CallChooseFormat] |})
          | Ok format =>
              (Sent {| code := 200;
                       payload :=
                         JsonBody
                           (youtube_response info thumbnail (JStr (format_url format))) |},
               {| cache := cache s;
                  calls := (calls s ++ [CallGetInfo url]) ++ [CallChooseFormat] |})
          end
      end
  end.
Proof.
  intros Hurl Hne Hdetect Hvalid. unfold Simple.api_video. step_handler.
  rewrite Hurl, (present_Some url Hne). cbn [negb to_string].
  rewrite Hdetect.
  change ("youtube" =? "youtube") with true. cbv beta iota.
  rewrite Hvalid. cbn [negb].
  destruct (ytdl_getInfo w url) as [info|m]; [|reflexivity].
  destruct (thumbnails info) as [|th ths]; [reflexivity|].
  cbn [lookup list_lookup]. cbv beta iota.
  now destruct (ytdl_chooseFormat w (formats info)).
Qed.

(** C1, on the code: a successful YouTube reply carries success:true,
    platform 'youtube' and the title, thumbnail, duration and author of
    the video in both variants.  Its [download_url] is the string
    [format.url] in the simple variant, but in the cached variant it is
    the stream object returned by [ytdl(url, ...)], not a string. *)
Theorem youtube_download_url
        (new_URL : string -> Exc URL) (w : World) (req : Request) (s : HState)
        (url thumbnail : string) (rest : list string) (info : Info) (format : Format) :
  query_url req = Some url ->
  url <> "" ->
  ytdl_validateURL w url = true ->
  ytdl_getInfo w url = Ok info ->
  thumbnails info = thumbnail :: rest ->
  ytdl_chooseFormat w (formats info) = Ok format ->
  let response (download_url : JSValue) :=
    JObj [("success", JBool true);
          ("platform", JStr "youtube");
          ("title", JStr (title info));
          ("thumbnail", JStr thumbnail);
          ("duration", JStr (lengthSeconds info));
          ("author", JStr (author_name info));
          ("download_url", download_url)] in
  (Simple.detectPlatform new_URL url = Some "youtube" ->
   fst (Simple.api_video new_URL w req s) =
   Sent {| code := 200; payload := JsonBody (response (JStr (format_url format))) |})
  /\ (query_platform req = Some "youtube" ->
      truthy (NodeCache.get (cache s) (time req) ("video_" ++ url)) = false ->
      fst (Cached.api_video w req s) =
      Sent {| code := 200; payload := JsonBody (response (JStream url)) |}
      /\ is_string (field "download_url" (response (JStream url))) = false).
Proof.
  intros Hurl Hne Hvalid Hinfo Hthumb Hformat. cbv zeta. split.
  - intros Hdetect.
    rewrite (simple_youtube new_URL w req s url Hurl Hne Hdetect Hvalid).
    now rewrite Hinfo, Hthumb, Hformat.
  - intros Hplat Hmiss.
    rewrite (cached_youtube w req s url Hurl Hne Hplat Hmiss Hvalid).
    rewrite Hinfo, Hthumb, Hformat. split; reflexivity.
Qed.

(** C2, on the code: an exception of [ytdl.getInfo] on the YouTube path is
    caught inside the route handler.  Whatever its message, including one
    that contains "Sign in to confirm", the cached variant answers 400
    with 'Unable to process YouTube video. ' followed by the message, and
    the simple variant answers 500 with the message; the error-handling
    middleware and its 403 are not involved. *)
Theorem upstream_failure_answered_by_handler
        (new_URL : string -> Exc URL) (w : World) (req : Request) (s : HState)
        (url message : string) :
  query_url req = Some url ->
  url <> "" ->
  ytdl_validateURL w url = true ->
  ytdl_getInfo w url = Throw message ->
  (query_platform req = Some "youtube" ->
   truthy (NodeCache.get (cache s) (time req) ("video_" ++ url)) = false ->
   fst (Cached.api_video w req s) =
   Sent {| code := 400;
           payload := JsonBody
                        (error_body ("Unable to process YouTube video. " ++ message)) |})
  /\ (Simple.detectPlatform new_URL url = Some "youtube" ->
      fst (Simple.api_video new_URL w req s) =
      Sent {| code := 500; payload := JsonBody (error_body message) |}).
Proof.
  intros Hurl Hne Hvalid Hinfo. split.
  - intros Hplat Hmiss.
    rewrite (cached_youtube w req s url Hurl Hne Hplat Hmiss Hvalid).
    now rewrite Hinfo.
  - intros Hdetect.
    rewrite (simple_youtube new_URL w req s url Hurl Hne Hdetect Hvalid).
    now rewrite Hinfo.
Qed.

(** ** Rate limiting *)

(** The limiter's store after one request. *)
Lemma cached_app_limits (env : option string) (w : World) (st : AppState) (req : Request) :
  app_limits (snd (Cached.app env w st req)) =
  if reaches_video env req
  then <[ip req := increment Cached.limiter_options (app_limits st) (ip req) (time req)]>
         (app_limits st)
  else app_limits st.
Proof.
  destruct (reaches_video env req) eqn:Hreach.
  - rewrite (cached_app_video env w st req Hreach). cbv zeta.
    now destruct (hits _ <=? 100)%nat.
  - now rewrite (cached_app_elsewhere env w st req Hreach).
Qed.





(** The first request of an address opens its window, one hour long. *)
Lemma first_request_opens_window (env : option string) (w : World) (st : AppState)
      (req : Request) :
  app_limits st !! ip req = None ->
  reaches_video env req = true ->
  app_limits (snd (Cached.app env w st req)) !! ip req =
  Some {| hits := 1; resetTime := (time req + 60 * 60 * 1000)%Z |}.
Proof.
  intros Hnone Hreach.
  rewrite cached_app_limits, Hreach, lookup_insert_eq.
  unfold increment. now rewrite Hnone.
Qed.



(** ** Security headers *)


(** In the cached variant the headers are set right after the CORS check:
    every response to a request that passes it, other than a preflight,
    carries both. *)
Lemma cached_variant_security_headers
      (env : option string) (w : World) (st : AppState) (req : Request) (r : Response) :
  origin_allowed env req = true ->
  method req <> OPTIONS ->
  under "/api-docs" (path req) = false ->
  fst (Cached.app env w st req) = Some r ->
  getHeader "X-Content-Type-Options" (headers r) = Some "nosniff"
  /\ getHeader "X-XSS-Protection" (headers r) = Some "1; mode=block".
Proof.
  unfold origin_allowed. intros Horigin Hmethod Hdocs.
  unfold Cached.app, Cached.stack, Cached.compression, Cached.performance_monitor,
    Cached.cors, Cached.security_headers, express_json, swagger_ui, app_get,
    Cached.error_middleware, Cached.not_found, Cached.ping, Cached.root,
    then_, Cached.limiter, rateLimit, async_handler.
  cbn [dispatch].
  destruct (origin req) as [o|]; rewrite ?Horigin;
    (destruct (method req); try (now elim Hmethod); cbn [dispatch get_like andb]);
    (destruct (body_error req) as [e|]; cbn [dispatch];
      [destruct (includes e "Sign in to confirm");
       destruct (env_is env "production"); read_headers|]);
    rewrite Hdocs; cbn [dispatch get_like andb].
  all: destruct (path req =? "/ping"); cbn [dispatch]; try read_headers.
  all: destruct (path req =? "/"); cbn [dispatch]; try read_headers.
  all: destruct (path req =? "/api/video"); cbn [dispatch]; try read_headers.
  all: destruct (hits _ <=? _)%nat; cbn [dispatch]; try read_headers.
  all: destruct (Cached.api_video w req _) as [[a|m|r0] s']; cbn [fst dispatch];
    try discriminate; read_headers.
Qed.

(** A request from an origin outside the list is turned away by the CORS
    check before the headers are set: the error response has neither. *)
Lemma cached_variant_cors_rejection :
  let req := {| method := GET; path := "/ping";
                query_url := None; query_platform := None;
                ip := "203.0.113.7"; origin := Some "https://elsewhere.example";
                body_error := None; time := 0 |} in
  exists r,
    fst (Cached.app None good initial req) = Some r
    /\ status r = 500%Z
    /\ getHeader "X-Content-Type-Options" (headers r) = None
    /\ getHeader "X-XSS-Protection" (headers r) = None.
Proof.
  cbv zeta. eexists. repeat split; reflexivity.
Qed.

(** ** Status codes of the route handler *)

(** The handler of the cached variant answers 200, 400 or 500, never 403. *)
Lemma cached_api_video_codes (w : World) (req : Request) (s : HState) (r : Reply) :
  fst (Cached.api_video w req s) = Sent r ->
  code r = 200%Z \/ code r = 400%Z \/ code r = 500%Z.
Proof.
  unfold Cached.api_video. step_handler.
  destruct (negb (present (query_url req)) || negb (present (query_platform req)));
    [intros [= <-]; auto|].
  destruct (truthy _); [intros [= <-]; auto|].
  destruct (to_string (query_platform req) =? "youtube").
  - destruct (ytdl_validateURL w _); cbn [negb]; [|intros [= <-]; auto].
    destruct (ytdl_getInfo w _) as [info|m]; cbv beta iota; [|intros [= <-]; auto].
    destruct (thumbnails info) as [|th ths]; cbn [lookup list_lookup]; cbv beta iota;
      [intros [= <-]; auto|].
    destruct (ytdl_chooseFormat w _) as [f|m]; cbv beta iota; intros [= <-]; auto.
  - destruct (to_string (query_platform req) =? "instagram"); [|intros [= <-]; auto].
    destruct (instagramGetUrl w _) as [ig|m]; cbv beta iota; [|intros [= <-]; auto].
    destruct (url_list ig) as [|u us]; cbn [length Nat.eqb negb]; cbv beta iota;
      intros [= <-]; auto.
Qed.

(** The error-handling middleware does map the age-verification message
    to 403, for the errors that reach it. *)
Lemma error_middleware_age_restricted (env : option string) (message : string)
      (req : Request) (h : Headers) (st : AppState) :
  includes message "Sign in to confirm" = true ->
  dispatch [Cached.error_middleware env] (Some message) req h st =
  (Some (res_json 403
           (error_body "This video requires age verification. Please try another video.")
           (setHeader "Content-Type" "application/json" h)),
   st).
Proof.
  intros Hsig. unfold Cached.error_middleware. cbn [dispatch]. now rewrite Hsig.
Qed.

(** The whole cached application on an age-restricted video: the reply is
    the handler's 400. *)
Lemma age_restricted_request_gets_400 :
  exists r,
    fst (Cached.app None (refusing "Sign in to confirm your age") initial
           (video_request watch_url (Some "youtube") client 0)) = Some r
    /\ status r = 400%Z
    /\ body r = JsonBody
                  (error_body
                     "Unable to process YouTube video. Sign in to confirm your age").
Proof.
  eexists. repeat split; reflexivity.
Qed.

(** ** The statements at concrete inputs *)

Lemma youtube_download_url_at_watch_url :
  fst (Simple.api_video demo_URL good
         (video_request watch_url (Some "youtube") client 0) fresh) =
  Sent {| code := 200;
          payload := JsonBody
                       (youtube_response some_info
                          "https://i.ytimg.com/vi/dQw4w9WgXcQ/default.jpg"
                          (JStr "https://rr1.googlevideo.com/videoplayback?itag=18")) |}
  /\ fst (Cached.api_video good
            (video_request watch_url (Some "youtube") client 0) fresh) =
     Sent {| code := 200;
             payload := JsonBody
                          (youtube_response some_info
                             "https://i.ytimg.com/vi/dQw4w9WgXcQ/default.jpg"
                             (JStream watch_url)) |}.
Proof.
  destruct (youtube_download_url demo_URL good
              (video_request watch_url (Some "youtube") client 0) fresh
              watch_url "https://i.ytimg.com/vi/dQw4w9WgXcQ/default.jpg" []
              some_info mp4) as [Hsimple Hcached];
    [reflexivity | discriminate | reflexivity | reflexivity | reflexivity | reflexivity |].
  split.
  - apply Hsimple. reflexivity.
  - apply Hcached; reflexivity.
Defined.

Lemma upstream_failure_at_age_restricted_video :
  fst (Cached.api_video (refusing "Sign in to confirm your age")
         (video_request watch_url (Some "youtube") client 0) fresh) =
  Sent {| code := 400;
          payload := JsonBody
                       (error_body
                          ("Unable to process YouTube video. " ++
                           "Sign in to confirm your age")) |}
  /\ fst (Simple.api_video demo_URL (refusing "Sign in to confirm your age")
            (video_request watch_url None client 0) fresh) =
     Sent {| code := 500;
             payload := JsonBody (error_body "Sign in to confirm your age") |}.
Proof.
  split.
  - apply (upstream_failure_answered_by_handler demo_URL
             (refusing "Sign in to confirm your age")
             (video_request watch_url (Some "youtube") client 0) fresh watch_url
             "Sign in to confirm your age");
      solve [reflexivity | discriminate].
  - apply (upstream_failure_answered_by_handler demo_URL
             (refusing "Sign in to confirm your age")
             (video_request watch_url None client 0) fresh watch_url
             "Sign in to confirm your age");
      solve [reflexivity | discriminate].
Defined.

Lemma repeated_request_at_watch_url :
  fst (Cached.api_video good (video_request watch_url (Some "youtube") client 0) fresh) =
  Sent {| code := 200;
          payload := JsonBody
                       (youtube_response some_info
                          "https://i.ytimg.com/vi/dQw4w9WgXcQ/default.jpg"
                          (JStream watch_url)) |}
  /\ fst (Cached.api_video (refusing "offline")
            (video_request watch_url (Some "youtube") "198.51.100.9" 1000)
            (snd (Cached.api_video good
                    (video_request watch_url (Some "youtube") client 0) fresh))) =
     Sent {| code := 200;
             payload := JsonBody
                          (youtube_response some_info
                             "https://i.ytimg.com/vi/dQw4w9WgXcQ/default.jpg"
                             (JStreamCopy watch_url)) |}.
Proof.
  assert (Htime : (0 <= 1000 < 0 + 3600 * 1000)%Z) by lia.
  pose proof (repeated_request_served_from_cache good (refusing "offline")
                (video_request watch_url (Some "youtube") client 0)
                (video_request watch_url (Some "youtube") "198.51.100.9" 1000)
                fresh
                (snd (Cached.api_video good
                        (video_request watch_url (Some "youtube") client 0) fresh))
                (youtube_response some_info
                   "https://i.ytimg.com/vi/dQw4w9WgXcQ/default.jpg" (JStream watch_url))
                eq_refl eq_refl eq_refl eq_refl Htime eq_refl) as [Hsecond _].
  split; [reflexivity|]. now rewrite Hsecond.
Defined.

Lemma instagram_first_url_at_reel_url :
  fst (Simple.api_video demo_URL good (video_request reel_url None client 0) fresh) =
  Sent {| code := 200;
          payload := JsonBody
                       (JObj [("success", JBool true);
                              ("platform", JStr "instagram");
                              ("download_url",
                               JStr "https://scontent.cdninstagram.com/v/1.mp4");
                              ("type", JStr "video")]) |}
  /\ fst (Cached.api_video empty_media
            (video_request reel_url (Some "instagram") client 0) fresh) =
     Sent {| code := 400;
             payload := JsonBody (error_body "No downloadable URL found") |}.
Proof.
  split.
  - apply (instagram_first_url_or_400 demo_URL good
             (video_request reel_url None client 0) fresh reel_url some_media);
      solve [reflexivity | discriminate].
  - apply (instagram_first_url_or_400 demo_URL empty_media
             (video_request reel_url (Some "instagram") client 0) fresh reel_url
             {| url_list := []; media_type := "video" |});
      solve [reflexivity | discriminate].
Defined.

Lemma unsupported_platform_at_other_url :
  Simple.api_video demo_URL good (video_request other_url None client 0) fresh =
  (Sent {| code := 400;
           payload :=
             JsonBody
               (error_body
                  "Unsupported platform. Please provide a valid YouTube or Instagram URL") |},
   fresh)
  /\ Cached.api_video good (video_request watch_url (Some "vimeo") client 0) fresh =
     (Sent {| code := 400; payload := JsonBody (error_body "Unsupported platform") |},
      fresh).
Proof.
  split.
  - apply (unsupported_platform_rejected demo_URL good
             (video_request other_url None client 0) fresh other_url);
      solve [reflexivity | discriminate].
  - apply (proj2 (unsupported_platform_rejected demo_URL good
                    (video_request watch_url (Some "vimeo") client 0) fresh watch_url
                    ltac:(reflexivity) ltac:(discriminate)) "vimeo");
      solve [reflexivity | discriminate].
Defined.



Lemma cache_hit_with_unknown_platform :
  Cached.api_video (refusing "offline")
    (video_request other_url (Some "tiktok") client 1000) warm
  = (Sent {| code := 200; payload := JsonBody (instagram_response some_media) |}, warm).
Proof.
  apply (cache_hit_precedes_platform_dispatch (refusing "offline")
           (video_request other_url (Some "tiktok") client 1000) warm other_url
           (instagram_response some_media));
    solve [reflexivity | discriminate | vm_compute; reflexivity].
Defined.

Import MoreExamples.

(** * Further properties of the route handlers *)

(** ** Parameter validation and url validation *)

(** X1: a request without a usable [url] (absent or empty) is answered 400
    'URL is required' by the simple variant; the cached variant answers
    400 'URL and platform are required' as soon as [url] or [platform] is
    absent or empty.  The check comes first: the cache is not consulted,
    even if it holds the url, no library is called, and the state is as it
    was. *)
Theorem missing_parameters_rejected
        (new_URL : string -> Exc URL) (w : World) (req : Request) (s : HState) :
  (present (query_url req) = false ->
   Simple.api_video new_URL w req s =
   (Sent {| code := 400; payload := JsonBody (error_body "URL is required") |}, s))
  /\ (present (query_url req) && present (query_platform req) = false ->
      Cached.api_video w req s =
      (Sent {| code := 400;
               payload := JsonBody (error_body "URL and platform are required") |}, s)).
Proof.
  split.
  - intros Hurl. unfold Simple.api_video. step_handler. now rewrite Hurl.
  - intros Hparams. unfold Cached.api_video. step_handler.
    apply andb_false_iff in Hparams as [-> | ->]; cbn [negb orb]; [reflexivity|].
    now rewrite orb_true_r.
Qed.

Lemma missing_platform_beats_cache :
  Cached.api_video good (video_request other_url None client 1000) warm =
  (Sent {| code := 400;
           payload := JsonBody (error_body "URL and platform are required") |}, warm)
  /\ Simple.api_video demo_URL good (plain_get "/api/video" client 0) fresh =
     (Sent {| code := 400; payload := JsonBody (error_body "URL is required") |}, fresh).
Proof.
  split.
  - apply (proj2 (missing_parameters_rejected demo_URL good
                    (video_request other_url None client 1000) warm)).
    reflexivity.
  - apply (proj1 (missing_parameters_rejected demo_URL good
                    (plain_get "/api/video" client 0) fresh)).
    reflexivity.
Defined.

(** X2: a url that [ytdl.validateURL] refuses is answered 400 'Invalid
    YouTube URL' on the YouTube path of both variants, before any
    extraction: [ytdl.getInfo] is not called and nothing is stored. *)
Theorem invalid_youtube_url_rejected
        (new_URL : string -> Exc URL) (w : World) (req : Request) (s : HState)
        (url : string) :
  query_url req = Some url ->
  url <> "" ->
  ytdl_validateURL w url = false ->
  (Simple.detectPlatform new_URL url = Some "youtube" ->
   Simple.api_video new_URL w req s =
   (Sent {| code := 400; payload := JsonBody (error_body "Invalid YouTube URL") |}, s))
  /\ (query_platform req = Some "youtube" ->
      truthy (NodeCache.get (cache s) (time req) ("video_" ++ url)) = false ->
      Cached.api_video w req s =
      (Sent {| code := 400; payload := JsonBody (error_body "Invalid YouTube URL") |}, s)).
Proof.
  intros Hurl Hne Hvalid. split.
  - intros Hdetect. unfold Simple.api_video. step_handler.
    rewrite Hurl, (present_Some url Hne). cbn [negb to_string].
    rewrite Hdetect. change ("youtube" =? "youtube") with true. cbv beta iota.
    now rewrite Hvalid.
  - intros Hplat Hmiss. unfold Cached.api_video. step_handler.
    rewrite Hurl, Hplat, (present_Some url Hne). cbn [negb orb to_string present].
    change ("youtube" =? "") with false. cbn [negb]. rewrite Hmiss.
    change ("youtube" =? "youtube") with true. cbv beta iota.
    now rewrite Hvalid.
Qed.

Lemma invalid_youtube_url_at_channel_page :
  Simple.api_video demo_URL good
    (video_request "https://www.youtube.com/feed/trending" None client 0) fresh =
  (Sent {| code := 400; payload := JsonBody (error_body "Invalid YouTube URL") |}, fresh)
  /\ Cached.api_video good
       (video_request "https://www.youtube.com/feed/trending" (Some "youtube") client 0)
       fresh =
     (Sent {| code := 400; payload := JsonBody (error_body "Invalid YouTube URL") |}, fresh).
Proof.
  split.
  - apply (invalid_youtube_url_rejected demo_URL good
             (video_request "https://www.youtube.com/feed/trending" None client 0) fresh
             "https://www.youtube.com/feed/trending");
      solve [reflexivity | discriminate].
  - apply (invalid_youtube_url_rejected demo_URL good
             (video_request "https://www.youtube.com/feed/trending" (Some "youtube")
                client 0) fresh
             "https://www.youtube.com/feed/trending");
      solve [reflexivity | discriminate].
Defined.

(** ** Failures of the libraries *)

(** X3: when [ytdl.chooseFormat] throws (no format with both audio and
    video), the cached helper replaces the exception by its own, and the
    handler prefixes it once more: the reply is 400 with 'Unable to
    process YouTube video. Unable to process YouTube video. Please try
    again later.', the library's message is lost, and nothing is stored.
    The simple variant answers 500 with the library's message. *)
Theorem no_suitable_format
        (new_URL : string -> Exc URL) (w : World) (req : Request) (s : HState)
        (url thumbnail message : string) (rest : list string) (info : Info) :
  query_url req = Some url ->
  url <> "" ->
  ytdl_validateURL w url = true ->
  ytdl_getInfo w url = Ok info ->
  thumbnails info = thumbnail :: rest ->
  ytdl_chooseFormat w (formats info) = Throw message ->
  (query_platform req = Some "youtube" ->
   truthy (NodeCache.get (cache s) (time req) ("video_" ++ url)) = false ->
   fst (Cached.api_video w req s) =
   Sent {| code := 400;
           payload :=
             JsonBody
               (error_body
                  "Unable to process YouTube video. Unable to process YouTube video. Please try again later.") |}
   /\ cache (snd (Cached.api_video w req s)) = cache s)
  /\ (Simple.detectPlatform new_URL url = Some "youtube" ->
      fst (Simple.api_video new_URL w req s) =
      Sent {| code := 500; payload := JsonBody (error_body message) |}).
Proof.
  intros Hurl Hne Hvalid Hinfo Hthumb Hformat. split.
  - intros Hplat Hmiss.
    rewrite (cached_youtube w req s url Hurl Hne Hplat Hmiss Hvalid).
    rewrite Hinfo, Hthumb, Hformat. split; reflexivity.
  - intros Hdetect.
    rewrite (simple_youtube new_URL w req s url Hurl Hne Hdetect Hvalid).
    now rewrite Hinfo, Hthumb, Hformat.
Qed.

Lemma no_suitable_format_at_watch_url :
  fst (Cached.api_video empty_media
         (video_request watch_url (Some "youtube") client 0) fresh) =
  Sent {| code := 400;
          payload :=
            JsonBody
              (error_body
                 "Unable to process YouTube video. Unable to process YouTube video. Please try again later.") |}
  /\ fst (Simple.api_video demo_URL empty_media
            (video_request watch_url None client 0) fresh) =
     Sent {| code := 500;
             payload := JsonBody (error_body "No such format found: highest") |}.
Proof.
  split.
  - apply (proj1 (no_suitable_format demo_URL empty_media
                    (video_request watch_url (Some "youtube") client 0) fresh
                    watch_url "https://i.ytimg.com/vi/dQw4w9WgXcQ/default.jpg"
                    "No such format found: highest" [] some_info
                    eq_refl ltac:(discriminate) eq_refl eq_refl eq_refl eq_refl));
      reflexivity.
  - apply (proj2 (no_suitable_format demo_URL empty_media
                    (video_request watch_url None client 0) fresh
                    watch_url "https://i.ytimg.com/vi/dQw4w9WgXcQ/default.jpg"
                    "No such format found: highest" [] some_info
                    eq_refl ltac:(discriminate) eq_refl eq_refl eq_refl eq_refl));
      reflexivity.
Defined.

(** X4: a video whose [thumbnails] array is empty cannot be answered,
    although [ytdl.getInfo] succeeded: reading [thumbnails[0].url] throws
    while the response is being built, before the download url is asked
    for.  The cached variant answers 400 'Unable to process YouTube
    video. ...' and stores nothing, the simple variant answers 500; in
    both, [ytdl.getInfo] is the only library call made. *)
Theorem video_without_thumbnail
        (new_URL : string -> Exc URL) (w : World) (req : Request) (s : HState)
        (url : string) (info : Info) :
  query_url req = Some url ->
  url <> "" ->
  ytdl_validateURL w url = true ->
  ytdl_getInfo w url = Ok info ->
  thumbnails info = [] ->
  let logged := {| cache := cache s; calls := calls s ++ [CallGetInfo url] |} in
  (query_platform req = Some "youtube" ->
   truthy (NodeCache.get (cache s) (time req) ("video_" ++ url)) = false ->
   exists message,
     Cached.api_video w req s =
     (Sent {| code := 400;
              payload := JsonBody
                           (error_body ("Unable to process YouTube video. " ++ message)) |},
      logged))
  /\ (Simple.detectPlatform new_URL url = Some "youtube" ->
      exists message,
        Simple.api_video new_URL w req s =
        (Sent {| code := 500; payload := JsonBody (error_body message) |}, logged)).
Proof.
  intros Hurl Hne Hvalid Hinfo Hthumb. cbv zeta. split.
  - intros Hplat Hmiss. eexists.
    rewrite (cached_youtube w req s url Hurl Hne Hplat Hmiss Hvalid).
    rewrite Hinfo, Hthumb. reflexivity.
  - intros Hdetect. eexists.
    rewrite (simple_youtube new_URL w req s url Hurl Hne Hdetect Hvalid).
    rewrite Hinfo, Hthumb. reflexivity.
Qed.

(** X5: an exception of the Instagram resolver is caught in the handler
    and reported with its message: 400 'Unable to process Instagram
    video. ' followed by the message in the cached variant, where nothing
    is stored, and 500 with the bare message in the simple variant. *)
Theorem instagram_resolver_failure
        (new_URL : string -> Exc URL) (w : World) (req : Request) (s : HState)
        (url message : string) :
  query_url req = Some url ->
  url <> "" ->
  instagramGetUrl w url = Throw message ->
  let logged := {| cache := cache s; calls := calls s ++ [CallInstagramGetUrl url] |} in
  (query_platform req = Some "instagram" ->
   truthy (NodeCache.get (cache s) (time req) ("video_" ++ url)) = false ->
   Cached.api_video w req s =
   (Sent {| code := 400;
            payload := JsonBody
                         (error_body ("Unable to process Instagram video. " ++ message)) |},
    logged))
  /\ (Simple.detectPlatform new_URL url = Some "instagram" ->
      Simple.api_video new_URL w req s =
      (Sent {| code := 500; payload := JsonBody (error_body message) |}, logged)).
Proof.
  intros Hurl Hne Hthrow. cbv zeta. split.
  - intros Hplat Hmiss.
    now rewrite (cached_instagram w req s url Hurl Hne Hplat Hmiss), Hthrow.
  - intros Hdetect.
    now rewrite (simple_instagram new_URL w req s url Hurl Hne Hdetect), Hthrow.
Qed.

Lemma instagram_resolver_failure_at_reel_url :
  Cached.api_video (refusing "Request failed with status code 401")
    (video_request reel_url (Some "instagram") client 0) fresh =
  (Sent {| code := 400;
           payload :=
             JsonBody
               (error_body
                  ("Unable to process Instagram video. " ++
                   "Request failed with status code 401")) |},
   {| cache := cache fresh; calls := calls fresh ++ [CallInstagramGetUrl reel_url] |}).
Proof.
  apply (proj1 (instagram_resolver_failure demo_URL
                  (refusing "Request failed with status code 401")
                  (video_request reel_url (Some "instagram") client 0) fresh reel_url
                  "Request failed with status code 401"
                  eq_refl ltac:(discriminate) eq_refl));
    reflexivity.
Defined.

Lemma video_without_thumbnail_at_watch_url :
  exists message,
    Cached.api_video bare (video_request watch_url (Some "youtube") client 0) fresh =
    (Sent {| code := 400;
             payload := JsonBody
                          (error_body ("Unable to process YouTube video. " ++ message)) |},
     {| cache := cache fresh; calls := calls fresh ++ [CallGetInfo watch_url] |}).
Proof.
  apply (proj1 (video_without_thumbnail demo_URL bare
                  (video_request watch_url (Some "youtube") client 0) fresh watch_url
                  bare_info eq_refl ltac:(discriminate) eq_refl eq_refl eq_refl));
    reflexivity.
Defined.

(** ** The cache under the handler *)

(** X12: a request changes at most the cache entry of its own url: every
    entry stored under another key is what it was, whatever the request
    and whatever the libraries answer. *)
Theorem other_entries_untouched
        (w : World) (req : Request) (s : HState) (key : string) :
  key <> "video_" ++ to_string (query_url req) ->
  cache (snd (Cached.api_video w req s)) !! key = cache s !! key.
Proof.
  intros Hkey.
  destruct (cached_api_video_cache w req s) as [[Hsame | [v [_ [_ [_ Hset]]]]] _].
  - now rewrite Hsame.
  - rewrite Hset. unfold NodeCache.set. now rewrite lookup_insert_ne.
Qed.

Lemma other_entries_untouched_at_reel_url :
  cache (snd (Cached.api_video good
                (video_request reel_url (Some "instagram") client 1000) warm))
    !! ("video_" ++ other_url)
  = cache warm !! ("video_" ++ other_url).
Proof.
  apply (other_entries_untouched good
           (video_request reel_url (Some "instagram") client 1000) warm
           ("video_" ++ other_url)).
  discriminate.
Defined.

(** X13: once the entry of a url has expired, the next request for it is
    served by the library again: the resolver is called, and its answer
    is sent and stored under the url's key with a new expiry, 3600 seconds
    after this request. *)
Theorem expired_entry_is_refreshed
        (w : World) (req : Request) (s : HState) (url first : string)
        (rest : list string) (old : NodeCache.Entry) (ig : IgResponse) :
  query_url req = Some url ->
  url <> "" ->
  query_platform req = Some "instagram" ->
  cache s !! ("video_" ++ url) = Some old ->
  (NodeCache.expires old < time req)%Z ->
  instagramGetUrl w url = Ok ig ->
  url_list ig = first :: rest ->
  let after := snd (Cached.api_video w req s) in
  fst (Cached.api_video w req s) =
  Sent {| code := 200; payload := JsonBody (instagram_response ig) |}
  /\ calls after = (calls s ++ [CallInstagramGetUrl url])%list
  /\ cache after !! ("video_" ++ url) =
     Some {| NodeCache.value := instagram_response ig;
             NodeCache.expires := (time req + 3600 * 1000)%Z |}.
Proof.
  intros Hurl Hne Hplat Hold Hexpired Hig Hlist. cbv zeta.
  assert (Hmiss : truthy (NodeCache.get (cache s) (time req) ("video_" ++ url)) = false).
  { unfold NodeCache.get. rewrite Hold.
    destruct (Z.leb_spec (time req) (NodeCache.expires old)); [lia | reflexivity]. }
  rewrite (cached_instagram w req s url Hurl Hne Hplat Hmiss), Hig, Hlist.
  cbn [length Nat.eqb fst snd calls cache]. repeat split.
  unfold NodeCache.set. rewrite lookup_insert_eq.
  unfold instagram_response. now rewrite Hlist.
Qed.

Lemma expired_entry_is_refreshed_after_an_hour :
  fst (Cached.api_video good
         (video_request other_url (Some "instagram") client 3600001) warm) =
  Sent {| code := 200; payload := JsonBody (instagram_response some_media) |}
  /\ calls (snd (Cached.api_video good
                   (video_request other_url (Some "instagram") client 3600001) warm)) =
     (calls warm ++ [CallInstagramGetUrl other_url])%list
  /\ cache (snd (Cached.api_video good
                   (video_request other_url (Some "instagram") client 3600001) warm))
       !! ("video_" ++ other_url) =
     Some {| NodeCache.value := instagram_response some_media;
             NodeCache.expires := (3600001 + 3600 * 1000)%Z |}.
Proof.
  assert (Hold : cache warm !! ("video_" ++ other_url) =
                 Some {| NodeCache.value := instagram_response some_media;
                         NodeCache.expires := 3600000 |})
    by (vm_compute; reflexivity).
  assert (Hexpired : (3600000 < 3600001)%Z) by lia.
  exact (expired_entry_is_refreshed good
           (video_request other_url (Some "instagram") client 3600001) warm other_url
           "https://scontent.cdninstagram.com/v/1.mp4"
           ["https://scontent.cdninstagram.com/v/2.mp4"]
           {| NodeCache.value := instagram_response some_media;
              NodeCache.expires := 3600000 |}
           some_media eq_refl ltac:(discriminate) eq_refl Hold Hexpired eq_refl eq_refl).
Defined.

(** X15: the [success] flag of a reply of the cached handler agrees with
    its status: as long as the cache holds success responses only (which
    it does in every run, see C3), the body is a JSON value whose
    [success] is [true] exactly when the status is 200. *)
Theorem success_flag_matches_status
        (w : World) (req : Request) (s : HState) (r : Reply) :
  all_success (cache s) ->
  fst (Cached.api_video w req s) = Sent r ->
  exists v, payload r = JsonBody v /\ (code r = 200%Z <-> is_success v = true).
Proof.
  intros Hcache. unfold Cached.api_video. step_handler.
  assert (Herr : forall (c : Z) (m : string),
             c <> 200%Z ->
             @Sent unit {| code := c; payload := JsonBody (error_body m) |} = Sent r ->
             exists v, payload r = JsonBody v /\ (code r = 200%Z <-> is_success v = true)).
  { intros c m Hc [= <-]. eexists. split; [reflexivity|]. cbn. split; [tauto | discriminate]. }
  assert (Hok : forall v : JSValue,
             is_success v = true ->
             @Sent unit {| code := 200; payload := JsonBody v |} = Sent r ->
             exists v, payload r = JsonBody v /\ (code r = 200%Z <-> is_success v = true)).
  { intros v Hv [= <-]. exists v. split; [reflexivity|]. cbn. tauto. }
  destruct (negb (present (query_url req)) || negb (present (query_platform req)));
    cbn [fst]; [now apply Herr|].
  destruct (truthy _) eqn:Hhit; cbn [fst].
  { apply Hok. revert Hhit. unfold NodeCache.get.
    destruct (cache s !! _) as [e|] eqn:He; [|discriminate].
    destruct (_ <=? _)%Z; [|discriminate].
    intros _. rewrite is_success_clone. exact (Hcache _ e He). }
  destruct (to_string (query_platform req) =? "youtube").
  - destruct (ytdl_validateURL w _); cbn [negb fst]; [|now apply Herr].
    destruct (ytdl_getInfo w _) as [info|m]; cbv beta iota; cbn [fst]; [|now apply Herr].
    destruct (thumbnails info) as [|th ths]; cbn [lookup list_lookup]; cbv beta iota;
      cbn [fst]; [now apply Herr|].
    destruct (ytdl_chooseFormat w _) as [f|m]; cbv beta iota; cbn [fst];
      [now apply Hok | now apply Herr].
  - destruct (to_string (query_platform req) =? "instagram"); cbn [fst];
      [|now apply Herr].
    destruct (instagramGetUrl w _) as [ig|m]; cbv beta iota; cbn [fst]; [|now apply Herr].
    destruct (url_list ig) as [|u us]; cbn [length Nat.eqb negb]; cbv beta iota;
      cbn [fst]; [now apply Herr | now apply Hok].
Qed.

Lemma success_flag_matches_status_at_reel_url :
  exists v,
    JsonBody (instagram_response some_media) = JsonBody v
    /\ (200%Z = 200%Z <-> is_success v = true).
Proof.
  assert (Hcache : all_success (cache fresh)).
  { intros key e He. exfalso. revert He. cbn [cache fresh].
    rewrite lookup_empty. discriminate. }
  exact (success_flag_matches_status good
           (video_request reel_url (Some "instagram") client 0) fresh
           {| code := 200; payload := JsonBody (instagram_response some_media) |}
           Hcache eq_refl).
Defined.

(** * Further properties of the cached application *)

(** ** Routing *)

Lemma cached_app_not_found (env : option string) (w : World) (st : AppState)
      (req : Request) :
  origin_allowed env req = true ->
  method req <> OPTIONS ->
  body_error req = None ->
  routed_cached req = false ->
  Cached.app env w st req =
  (Some (res_json 404 not_found_body
           (setHeader "Content-Type" "application/json" (route_headers req))),
   st).
Proof.
  unfold origin_allowed, routed_cached. intros Horigin Hmethod Hbody Hrouted.
  apply orb_false_iff in Hrouted as [Hdocs Hroutes].
  unfold Cached.app, Cached.stack, Cached.compression, Cached.performance_monitor,
    Cached.cors, Cached.security_headers, express_json, swagger_ui, app_get,
    Cached.error_middleware, Cached.not_found, Cached.ping, Cached.root,
    route_headers, not_found_body.
  cbn [dispatch].
  destruct (origin req) as [o|]; rewrite ?Horigin;
    (destruct (method req); try (now elim Hmethod));
    cbn [dispatch]; rewrite Hbody; cbn [dispatch]; rewrite Hdocs;
    cbn [dispatch get_like andb] in *; try reflexivity.
  all: apply orb_false_iff in Hroutes as [Hroutes Hvideo];
    apply orb_false_iff in Hroutes as [Hping Hroot];
    rewrite Hping; cbn [dispatch]; rewrite Hroot; cbn [dispatch];
    rewrite Hvideo; reflexivity.
Qed.

(** X7: in the cached variant a request that matches no route is answered
    by the 404 handler: status 404, success:false, 'Not Found', with the
    security headers, and the state of the process is untouched.  This
    holds for every method but a preflight, so a POST to [/api/video] or
    to [/ping] is a 404 as well. *)
Theorem unmatched_route_is_404
        (env : option string) (w : World) (st : AppState) (req : Request) :
  origin_allowed env req = true ->
  method req <> OPTIONS ->
  body_error req = None ->
  routed_cached req = false ->
  Cached.app env w st req =
  (Some (res_json 404 not_found_body
           (setHeader "Content-Type" "application/json" (route_headers req))),
   st)
  /\ status (res_json 404 not_found_body
               (setHeader "Content-Type" "application/json" (route_headers req)))
     = 404%Z
  /\ is_success not_found_body = false.
Proof.
  intros Horigin Hmethod Hbody Hrouted.
  split; [now apply cached_app_not_found | split; reflexivity].
Qed.

Lemma post_to_video_route_is_404 :
  Cached.app None good initial (browser_request POST "/api/video" None None) =
  (Some (res_json 404 not_found_body
           (setHeader "Content-Type" "application/json"
              (route_headers (browser_request POST "/api/video" None None)))),
   initial).
Proof.
  exact (proj1 (unmatched_route_is_404 None good initial
                  (browser_request POST "/api/video" None None)
                  eq_refl ltac:(discriminate) eq_refl eq_refl)).
Defined.



(** ** Errors handed to the error middleware *)



(** X10: in the cached variant a request whose JSON body does not parse
    is answered by the error middleware on every route, the route handlers
    being skipped and the state left as it was: 403 with the
    age-verification text if the parser's message contains 'Sign in to
    confirm', and otherwise 500 with the message, replaced by 'An
    unexpected error occurred' in production. *)
Theorem malformed_body_is_a_server_error
        (env : option string) (w : World) (st : AppState) (req : Request)
        (message : string) :
  origin_allowed env req = true ->
  method req <> OPTIONS ->
  body_error req = Some message ->
  Cached.app env w st req =
  (Some (if includes message "Sign in to confirm"
         then res_json 403
                (error_body
                   "This video requires age verification. Please try another video.")
                (setHeader "Content-Type" "application/json" (route_headers req))
         else res_json 500
                (error_body (if env_is env "production"
                             then "An unexpected error occurred"
                             else message))
                (setHeader "Content-Type" "application/json" (route_headers req))),
   st).
Proof.
  unfold origin_allowed. intros Horigin Hmethod Hbody.
  unfold Cached.app, Cached.stack, Cached.compression, Cached.performance_monitor,
    Cached.cors, Cached.security_headers, express_json, swagger_ui, app_get,
    Cached.error_middleware, Cached.not_found, route_headers.
  cbn [dispatch].
  destruct (origin req) as [o|]; rewrite ?Horigin;
    (destruct (method req); try (now elim Hmethod));
    cbn [dispatch]; rewrite Hbody; cbn [dispatch];
    now destruct (includes message "Sign in to confirm").
Qed.

Lemma malformed_body_in_production :
  Cached.app (Some "production") good initial
    (browser_request POST "/api/video" None (Some "Unexpected end of JSON input")) =
  (Some (res_json 500 (error_body "An unexpected error occurred")
           (setHeader "Content-Type" "application/json"
              (route_headers
                 (browser_request POST "/api/video" None
                    (Some "Unexpected end of JSON input"))))),
   initial).
Proof.
  exact (malformed_body_is_a_server_error (Some "production") good initial
           (browser_request POST "/api/video" None
              (Some "Unexpected end of JSON input"))
           "Unexpected end of JSON input" eq_refl ltac:(discriminate) eq_refl).
Defined.

(** ** What the limiter counts *)



(** ** The download page against the server *)

(** X14: with a url entered and a platform selected, [downloadVideo()]
    reports 'Download started!' and sends the browser to
    [/download/<platform>], with the encoded url in the query string.  No
    route of the cached server matches that path: the request is answered
    404 'Not Found', whichever platform is selected and whatever the url. *)
Theorem page_download_link_is_not_routed
        (encodeURIComponent : string -> Exc string)
        (videoUrl platform encoded : string)
        (env : option string) (w : World) (st : AppState) (req : Request) :
  videoUrl <> "" ->
  encodeURIComponent videoUrl = Ok encoded ->
  In platform Page.platform_options ->
  method req = GET ->
  path req = Page.href_path ("/download/" ++ platform ++ "?url=" ++ encoded) ->
  origin req = None ->
  body_error req = None ->
  Page.downloadVideo encodeURIComponent videoUrl platform =
  {| Page.status_text := "Download started!";
     Page.location_href := Some ("/download/" ++ platform ++ "?url=" ++ encoded) |}
  /\ path req = "/download/" ++ platform
  /\ Cached.app env w st req =
     (Some (res_json 404 not_found_body
              (setHeader "Content-Type" "application/json" (route_headers req))),
      st).
Proof.
  intros Hurl Hencoded Hplatform Hmethod Hpath Horigin Hbody.
  assert (Hpage : Page.downloadVideo encodeURIComponent videoUrl platform =
                  {| Page.status_text := "Download started!";
                     Page.location_href :=
                       Some ("/download/" ++ platform ++ "?url=" ++ encoded) |}).
  { unfold Page.downloadVideo. apply String.eqb_neq in Hurl.
    now rewrite Hurl, Hencoded. }
  assert (Hdownload : path req = "/download/" ++ platform).
  { rewrite Hpath. destruct Hplatform as [<- | [<- | []]]; reflexivity. }
  split; [exact Hpage|]. split; [exact Hdownload|].
  apply cached_app_not_found.
  - unfold origin_allowed. now rewrite Horigin.
  - rewrite Hmethod. discriminate.
  - exact Hbody.
  - unfold routed_cached. rewrite Hdownload, Hmethod.
    destruct Hplatform as [<- | [<- | []]]; reflexivity.
Qed.

Lemma page_download_link_for_a_reel :
  Page.downloadVideo (fun text => Ok text) reel_url "instagram" =
  {| Page.status_text := "Download started!";
     Page.location_href := Some ("/download/" ++ "instagram" ++ "?url=" ++ reel_url) |}
  /\ Cached.app None good initial
       (browser_request GET
          (Page.href_path ("/download/" ++ "instagram" ++ "?url=" ++ reel_url))
          None None) =
     (Some (res_json 404 not_found_body
              (setHeader "Content-Type" "application/json"
                 (route_headers
                    (browser_request GET
                       (Page.href_path
                          ("/download/" ++ "instagram" ++ "?url=" ++ reel_url))
                       None None)))),
      initial).
Proof.
  assert (Hplatform : In "instagram" Page.platform_options) by (right; left; reflexivity).
  pose proof (page_download_link_is_not_routed (fun text => Ok text)
                reel_url "instagram" reel_url None good initial
                (browser_request GET
                   (Page.href_path ("/download/" ++ "instagram" ++ "?url=" ++ reel_url))
                   None None)
                ltac:(discriminate) eq_refl Hplatform eq_refl eq_refl eq_refl eq_refl)
    as [Hpage [_ Happ]].
  split; [exact Hpage | exact Happ].
Defined.
